(** * Shallow embedding of missing_text/extract/pdf.py

    The PDF backend (PyMuPDF), the OCR engine and the filesystem are
    external collaborators: each page exposes the outcome of every backend
    call the extractors make ([Res]: a value or the kind of exception the
    call raises), and the filesystem is a record of functions.  Everything
    the module itself does (the sandbox, the decorator, the page loop, the
    five extractors, the directory walker) is translated from the source. *)

From Stdlib Require Import String Ascii List Bool Arith Lia NArith ZArith.
Import ListNotations.
Open Scope string_scope.
Open Scope list_scope.

(* ------------------------------------------------------------------ *)
(** ** Python exceptions and backend outcomes *)

(** Exception classes raised by the backend.  PyMuPDF's [FileDataError]
    derives from [RuntimeError]. *)
Inductive exn_kind :=
| ValueError
| RuntimeError
| FileDataError
| FileNotFoundError
| IndexError
| OtherError.

(** Outcome of one backend call: a value, or an exception of some kind. *)
Inductive Res (A : Type) : Type :=
| ROk (a : A)
| RErr (k : exn_kind).
Arguments ROk {A} a.
Arguments RErr {A} k.

(** [except (ValueError, RuntimeError)] *)
Definition is_value_or_runtime (k : exn_kind) : bool :=
  match k with
  | ValueError | RuntimeError | FileDataError => true
  | _ => false
  end.

(** A resolved path: its components below the filesystem root. *)
Definition path := list string.

(** Exceptions that reach the caller of the module's functions. *)
Inductive Exn :=
| PDFProcessingError (m : PMsg)
| PyError (k : exn_kind)
with PMsg :=
| AccessDenied (p : path)            (* "Access denied: {path} is outside ..." *)
| InvalidFileType (suffix : string)  (* "Invalid file type: {suffix}" *)
| FileNotFound (p : path)            (* "File not found: {file_path}" *)
| NotADirectory (p : path)           (* "Not a directory: {directory}" *)
| InvalidInput (p : path)            (* "Invalid input: {path} is neither ..." *)
| InvalidOrCorrupted (k : exn_kind)  (* "Invalid or corrupted PDF file: ..." *)
| FileNotFoundOS (k : exn_kind)      (* "File not found: {e}" *)
| FailedToExtract (e : Exn).         (* "Failed to extract content from PDF: {e}" *)

(** Python-level result of a call: a return value or a raised exception. *)
Inductive Exc (A : Type) : Type :=
| Ok (a : A)
| Raise (e : Exn).
Arguments Ok {A} a.
Arguments Raise {A} e.

Definition bind {A B} (m : Exc A) (k : A -> Exc B) : Exc B :=
  match m with Ok a => k a | Raise e => Raise e end.
Notation "x <- m ;; k" := (bind m (fun x => k))
  (at level 61, m at next level, right associativity).

Definition is_ok {A} (m : Exc A) : bool :=
  match m with Ok _ => true | Raise _ => false end.

(* ------------------------------------------------------------------ *)
(** ** Strings *)

(** *** Python's [str.lower()] and [str.isupper()]

    A Python [str] is held as the bytes of its UTF-8 encoding, the way a
    file name reaches [pathlib] on POSIX: a byte that does not decode
    stands for a lone surrogate U+DC80..U+DCFF ([surrogateescape]).  The
    case tables are CPython's (3.11, Unicode 14.0). *)

Section Unicode.
Local Open Scope N_scope.

(** Simple lower-case mappings of the Unicode database (Unicode 14.0, as
    shipped with CPython 3.11), as runs [(start, count, stride, target)]:
    [start + stride * i] maps to [target + stride * i] for [i < count]. *)
Definition lower_runs : list (N * N * N * N) := [
  (0x41, 26, 1, 0x61); (0xC0, 23, 1, 0xE0); (0xD8, 7, 1, 0xF8); (0x100, 24, 2, 0x101);
  (0x132, 3, 2, 0x133); (0x139, 8, 2, 0x13A); (0x14A, 23, 2, 0x14B);
  (0x178, 1, 1, 0xFF); (0x179, 3, 2, 0x17A); (0x181, 1, 1, 0x253); (0x182, 2, 2, 0x183);
  (0x186, 1, 1, 0x254); (0x187, 1, 1, 0x188); (0x189, 2, 1, 0x256);
  (0x18B, 1, 1, 0x18C); (0x18E, 1, 1, 0x1DD); (0x18F, 1, 1, 0x259);
  (0x190, 1, 1, 0x25B); (0x191, 1, 1, 0x192); (0x193, 1, 1, 0x260);
  (0x194, 1, 1, 0x263); (0x196, 1, 1, 0x269); (0x197, 1, 1, 0x268);
  (0x198, 1, 1, 0x199); (0x19C, 1, 1, 0x26F); (0x19D, 1, 1, 0x272);
  (0x19F, 1, 1, 0x275); (0x1A0, 3, 2, 0x1A1); (0x1A6, 1, 1, 0x280);
  (0x1A7, 1, 1, 0x1A8); (0x1A9, 1, 1, 0x283); (0x1AC, 1, 1, 0x1AD);
  (0x1AE, 1, 1, 0x288); (0x1AF, 1, 1, 0x1B0); (0x1B1, 2, 1, 0x28A);
  (0x1B3, 2, 2, 0x1B4); (0x1B7, 1, 1, 0x292); (0x1B8, 1, 1, 0x1B9);
  (0x1BC, 1, 1, 0x1BD); (0x1C4, 1, 1, 0x1C6); (0x1C5, 1, 1, 0x1C6);
  (0x1C7, 1, 1, 0x1C9); (0x1C8, 1, 1, 0x1C9); (0x1CA, 1, 1, 0x1CC);
  (0x1CB, 9, 2, 0x1CC); (0x1DE, 9, 2, 0x1DF); (0x1F1, 1, 1, 0x1F3);
  (0x1F2, 2, 2, 0x1F3); (0x1F6, 1, 1, 0x195); (0x1F7, 1, 1, 0x1BF);
  (0x1F8, 20, 2, 0x1F9); (0x220, 1, 1, 0x19E); (0x222, 9, 2, 0x223);
  (0x23A, 1, 1, 0x2C65); (0x23B, 1, 1, 0x23C); (0x23D, 1, 1, 0x19A);
  (0x23E, 1, 1, 0x2C66); (0x241, 1, 1, 0x242); (0x243, 1, 1, 0x180);
  (0x244, 1, 1, 0x289); (0x245, 1, 1, 0x28C); (0x246, 5, 2, 0x247);
  (0x370, 2, 2, 0x371); (0x376, 1, 1, 0x377); (0x37F, 1, 1, 0x3F3);
  (0x386, 1, 1, 0x3AC); (0x388, 3, 1, 0x3AD); (0x38C, 1, 1, 0x3CC);
  (0x38E, 2, 1, 0x3CD); (0x391, 17, 1, 0x3B1); (0x3A3, 9, 1, 0x3C3);
  (0x3CF, 1, 1, 0x3D7); (0x3D8, 12, 2, 0x3D9); (0x3F4, 1, 1, 0x3B8);
  (0x3F7, 1, 1, 0x3F8); (0x3F9, 1, 1, 0x3F2); (0x3FA, 1, 1, 0x3FB);
  (0x3FD, 3, 1, 0x37B); (0x400, 16, 1, 0x450); (0x410, 32, 1, 0x430);
  (0x460, 17, 2, 0x461); (0x48A, 27, 2, 0x48B); (0x4C0, 1, 1, 0x4CF);
  (0x4C1, 7, 2, 0x4C2); (0x4D0, 48, 2, 0x4D1); (0x531, 38, 1, 0x561);
  (0x10A0, 38, 1, 0x2D00); (0x10C7, 1, 1, 0x2D27); (0x10CD, 1, 1, 0x2D2D);
  (0x13A0, 80, 1, 0xAB70); (0x13F0, 6, 1, 0x13F8); (0x1C90, 43, 1, 0x10D0);
  (0x1CBD, 3, 1, 0x10FD); (0x1E00, 75, 2, 0x1E01); (0x1E9E, 1, 1, 0xDF);
  (0x1EA0, 48, 2, 0x1EA1); (0x1F08, 8, 1, 0x1F00); (0x1F18, 6, 1, 0x1F10);
  (0x1F28, 8, 1, 0x1F20); (0x1F38, 8, 1, 0x1F30); (0x1F48, 6, 1, 0x1F40);
  (0x1F59, 4, 2, 0x1F51); (0x1F68, 8, 1, 0x1F60); (0x1F88, 8, 1, 0x1F80);
  (0x1F98, 8, 1, 0x1F90); (0x1FA8, 8, 1, 0x1FA0); (0x1FB8, 2, 1, 0x1FB0);
  (0x1FBA, 2, 1, 0x1F70); (0x1FBC, 1, 1, 0x1FB3); (0x1FC8, 4, 1, 0x1F72);
  (0x1FCC, 1, 1, 0x1FC3); (0x1FD8, 2, 1, 0x1FD0); (0x1FDA, 2, 1, 0x1F76);
  (0x1FE8, 2, 1, 0x1FE0); (0x1FEA, 2, 1, 0x1F7A); (0x1FEC, 1, 1, 0x1FE5);
  (0x1FF8, 2, 1, 0x1F78); (0x1FFA, 2, 1, 0x1F7C); (0x1FFC, 1, 1, 0x1FF3);
  (0x2126, 1, 1, 0x3C9); (0x212A, 1, 1, 0x6B); (0x212B, 1, 1, 0xE5);
  (0x2132, 1, 1, 0x214E); (0x2160, 16, 1, 0x2170); (0x2183, 1, 1, 0x2184);
  (0x24B6, 26, 1, 0x24D0); (0x2C00, 48, 1, 0x2C30); (0x2C60, 1, 1, 0x2C61);
  (0x2C62, 1, 1, 0x26B); (0x2C63, 1, 1, 0x1D7D); (0x2C64, 1, 1, 0x27D);
  (0x2C67, 3, 2, 0x2C68); (0x2C6D, 1, 1, 0x251); (0x2C6E, 1, 1, 0x271);
  (0x2C6F, 1, 1, 0x250); (0x2C70, 1, 1, 0x252); (0x2C72, 1, 1, 0x2C73);
  (0x2C75, 1, 1, 0x2C76); (0x2C7E, 2, 1, 0x23F); (0x2C80, 50, 2, 0x2C81);
  (0x2CEB, 2, 2, 0x2CEC); (0x2CF2, 1, 1, 0x2CF3); (0xA640, 23, 2, 0xA641);
  (0xA680, 14, 2, 0xA681); (0xA722, 7, 2, 0xA723); (0xA732, 31, 2, 0xA733);
  (0xA779, 2, 2, 0xA77A); (0xA77D, 1, 1, 0x1D79); (0xA77E, 5, 2, 0xA77F);
  (0xA78B, 1, 1, 0xA78C); (0xA78D, 1, 1, 0x265); (0xA790, 2, 2, 0xA791);
  (0xA796, 10, 2, 0xA797); (0xA7AA, 1, 1, 0x266); (0xA7AB, 1, 1, 0x25C);
  (0xA7AC, 1, 1, 0x261); (0xA7AD, 1, 1, 0x26C); (0xA7AE, 1, 1, 0x26A);
  (0xA7B0, 1, 1, 0x29E); (0xA7B1, 1, 1, 0x287); (0xA7B2, 1, 1, 0x29D);
  (0xA7B3, 1, 1, 0xAB53); (0xA7B4, 8, 2, 0xA7B5); (0xA7C4, 1, 1, 0xA794);
  (0xA7C5, 1, 1, 0x282); (0xA7C6, 1, 1, 0x1D8E); (0xA7C7, 2, 2, 0xA7C8);
  (0xA7D0, 1, 1, 0xA7D1); (0xA7D6, 2, 2, 0xA7D7); (0xA7F5, 1, 1, 0xA7F6);
  (0xFF21, 26, 1, 0xFF41); (0x10400, 40, 1, 0x10428); (0x104B0, 36, 1, 0x104D8);
  (0x10570, 11, 1, 0x10597); (0x1057C, 15, 1, 0x105A3); (0x1058C, 7, 1, 0x105B3);
  (0x10594, 2, 1, 0x105BB); (0x10C80, 51, 1, 0x10CC0); (0x118A0, 32, 1, 0x118C0);
  (0x16E40, 32, 1, 0x16E60); (0x1E900, 34, 1, 0x1E922)].

(** Code points with the Case_Ignorable property, as closed ranges. *)
Definition case_ignorable_ranges : list (N * N) := [
  (0x27, 0x27); (0x2E, 0x2E); (0x3A, 0x3A); (0x5E, 0x5E); (0x60, 0x60); (0xA8, 0xA8);
  (0xAD, 0xAD); (0xAF, 0xAF); (0xB4, 0xB4); (0xB7, 0xB8); (0x2B0, 0x36F);
  (0x374, 0x375); (0x37A, 0x37A); (0x384, 0x385); (0x387, 0x387); (0x483, 0x489);
  (0x559, 0x559); (0x55F, 0x55F); (0x591, 0x5BD); (0x5BF, 0x5BF); (0x5C1, 0x5C2);
  (0x5C4, 0x5C5); (0x5C7, 0x5C7); (0x5F4, 0x5F4); (0x600, 0x605); (0x610, 0x61A);
  (0x61C, 0x61C); (0x640, 0x640); (0x64B, 0x65F); (0x670, 0x670); (0x6D6, 0x6DD);
  (0x6DF, 0x6E8); (0x6EA, 0x6ED); (0x70F, 0x70F); (0x711, 0x711); (0x730, 0x74A);
  (0x7A6, 0x7B0); (0x7EB, 0x7F5); (0x7FA, 0x7FA); (0x7FD, 0x7FD); (0x816, 0x82D);
  (0x859, 0x85B); (0x888, 0x888); (0x890, 0x891); (0x898, 0x89F); (0x8C9, 0x902);
  (0x93A, 0x93A); (0x93C, 0x93C); (0x941, 0x948); (0x94D, 0x94D); (0x951, 0x957);
  (0x962, 0x963); (0x971, 0x971); (0x981, 0x981); (0x9BC, 0x9BC); (0x9C1, 0x9C4);
  (0x9CD, 0x9CD); (0x9E2, 0x9E3); (0x9FE, 0x9FE); (0xA01, 0xA02); (0xA3C, 0xA3C);
  (0xA41, 0xA42); (0xA47, 0xA48); (0xA4B, 0xA4D); (0xA51, 0xA51); (0xA70, 0xA71);
  (0xA75, 0xA75); (0xA81, 0xA82); (0xABC, 0xABC); (0xAC1, 0xAC5); (0xAC7, 0xAC8);
  (0xACD, 0xACD); (0xAE2, 0xAE3); (0xAFA, 0xAFF); (0xB01, 0xB01); (0xB3C, 0xB3C);
  (0xB3F, 0xB3F); (0xB41, 0xB44); (0xB4D, 0xB4D); (0xB55, 0xB56); (0xB62, 0xB63);
  (0xB82, 0xB82); (0xBC0, 0xBC0); (0xBCD, 0xBCD); (0xC00, 0xC00); (0xC04, 0xC04);
  (0xC3C, 0xC3C); (0xC3E, 0xC40); (0xC46, 0xC48); (0xC4A, 0xC4D); (0xC55, 0xC56);
  (0xC62, 0xC63); (0xC81, 0xC81); (0xCBC, 0xCBC); (0xCBF, 0xCBF); (0xCC6, 0xCC6);
  (0xCCC, 0xCCD); (0xCE2, 0xCE3); (0xD00, 0xD01); (0xD3B, 0xD3C); (0xD41, 0xD44);
  (0xD4D, 0xD4D); (0xD62, 0xD63); (0xD81, 0xD81); (0xDCA, 0xDCA); (0xDD2, 0xDD4);
  (0xDD6, 0xDD6); (0xE31, 0xE31); (0xE34, 0xE3A); (0xE46, 0xE4E); (0xEB1, 0xEB1);
  (0xEB4, 0xEBC); (0xEC6, 0xEC6); (0xEC8, 0xECD); (0xF18, 0xF19); (0xF35, 0xF35);
  (0xF37, 0xF37); (0xF39, 0xF39); (0xF71, 0xF7E); (0xF80, 0xF84); (0xF86, 0xF87);
  (0xF8D, 0xF97); (0xF99, 0xFBC); (0xFC6, 0xFC6); (0x102D, 0x1030); (0x1032, 0x1037);
  (0x1039, 0x103A); (0x103D, 0x103E); (0x1058, 0x1059); (0x105E, 0x1060);
  (0x1071, 0x1074); (0x1082, 0x1082); (0x1085, 0x1086); (0x108D, 0x108D);
  (0x109D, 0x109D); (0x10FC, 0x10FC); (0x135D, 0x135F); (0x1712, 0x1714);
  (0x1732, 0x1733); (0x1752, 0x1753); (0x1772, 0x1773); (0x17B4, 0x17B5);
  (0x17B7, 0x17BD); (0x17C6, 0x17C6); (0x17C9, 0x17D3); (0x17D7, 0x17D7);
  (0x17DD, 0x17DD); (0x180B, 0x180F); (0x1843, 0x1843); (0x1885, 0x1886);
  (0x18A9, 0x18A9); (0x1920, 0x1922); (0x1927, 0x1928); (0x1932, 0x1932);
  (0x1939, 0x193B); (0x1A17, 0x1A18); (0x1A1B, 0x1A1B); (0x1A56, 0x1A56);
  (0x1A58, 0x1A5E); (0x1A60, 0x1A60); (0x1A62, 0x1A62); (0x1A65, 0x1A6C);
  (0x1A73, 0x1A7C); (0x1A7F, 0x1A7F); (0x1AA7, 0x1AA7); (0x1AB0, 0x1ACE);
  (0x1B00, 0x1B03); (0x1B34, 0x1B34); (0x1B36, 0x1B3A); (0x1B3C, 0x1B3C);
  (0x1B42, 0x1B42); (0x1B6B, 0x1B73); (0x1B80, 0x1B81); (0x1BA2, 0x1BA5);
  (0x1BA8, 0x1BA9); (0x1BAB, 0x1BAD); (0x1BE6, 0x1BE6); (0x1BE8, 0x1BE9);
  (0x1BED, 0x1BED); (0x1BEF, 0x1BF1); (0x1C2C, 0x1C33); (0x1C36, 0x1C37);
  (0x1C78, 0x1C7D); (0x1CD0, 0x1CD2); (0x1CD4, 0x1CE0); (0x1CE2, 0x1CE8);
  (0x1CED, 0x1CED); (0x1CF4, 0x1CF4); (0x1CF8, 0x1CF9); (0x1D2C, 0x1D6A);
  (0x1D78, 0x1D78); (0x1D9B, 0x1DFF); (0x1FBD, 0x1FBD); (0x1FBF, 0x1FC1);
  (0x1FCD, 0x1FCF); (0x1FDD, 0x1FDF); (0x1FED, 0x1FEF); (0x1FFD, 0x1FFE);
  (0x200B, 0x200F); (0x2018, 0x2019); (0x2024, 0x2024); (0x2027, 0x2027);
  (0x202A, 0x202E); (0x2060, 0x2064); (0x2066, 0x206F); (0x2071, 0x2071);
  (0x207F, 0x207F); (0x2090, 0x209C); (0x20D0, 0x20F0); (0x2C7C, 0x2C7D);
  (0x2CEF, 0x2CF1); (0x2D6F, 0x2D6F); (0x2D7F, 0x2D7F); (0x2DE0, 0x2DFF);
  (0x2E2F, 0x2E2F); (0x3005, 0x3005); (0x302A, 0x302D); (0x3031, 0x3035);
  (0x303B, 0x303B); (0x3099, 0x309E); (0x30FC, 0x30FE); (0xA015, 0xA015);
  (0xA4F8, 0xA4FD); (0xA60C, 0xA60C); (0xA66F, 0xA672); (0xA674, 0xA67D);
  (0xA67F, 0xA67F); (0xA69C, 0xA69F); (0xA6F0, 0xA6F1); (0xA700, 0xA721);
  (0xA770, 0xA770); (0xA788, 0xA78A); (0xA7F2, 0xA7F4); (0xA7F8, 0xA7F9);
  (0xA802, 0xA802); (0xA806, 0xA806); (0xA80B, 0xA80B); (0xA825, 0xA826);
  (0xA82C, 0xA82C); (0xA8C4, 0xA8C5); (0xA8E0, 0xA8F1); (0xA8FF, 0xA8FF);
  (0xA926, 0xA92D); (0xA947, 0xA951); (0xA980, 0xA982); (0xA9B3, 0xA9B3);
  (0xA9B6, 0xA9B9); (0xA9BC, 0xA9BD); (0xA9CF, 0xA9CF); (0xA9E5, 0xA9E6);
  (0xAA29, 0xAA2E); (0xAA31, 0xAA32); (0xAA35, 0xAA36); (0xAA43, 0xAA43);
  (0xAA4C, 0xAA4C); (0xAA70, 0xAA70); (0xAA7C, 0xAA7C); (0xAAB0, 0xAAB0);
  (0xAAB2, 0xAAB4); (0xAAB7, 0xAAB8); (0xAABE, 0xAABF); (0xAAC1, 0xAAC1);
  (0xAADD, 0xAADD); (0xAAEC, 0xAAED); (0xAAF3, 0xAAF4); (0xAAF6, 0xAAF6);
  (0xAB5B, 0xAB5F); (0xAB69, 0xAB6B); (0xABE5, 0xABE5); (0xABE8, 0xABE8);
  (0xABED, 0xABED); (0xFB1E, 0xFB1E); (0xFBB2, 0xFBC2); (0xFE00, 0xFE0F);
  (0xFE13, 0xFE13); (0xFE20, 0xFE2F); (0xFE52, 0xFE52); (0xFE55, 0xFE55);
  (0xFEFF, 0xFEFF); (0xFF07, 0xFF07); (0xFF0E, 0xFF0E); (0xFF1A, 0xFF1A);
  (0xFF3E, 0xFF3E); (0xFF40, 0xFF40); (0xFF70, 0xFF70); (0xFF9E, 0xFF9F);
  (0xFFE3, 0xFFE3); (0xFFF9, 0xFFFB); (0x101FD, 0x101FD); (0x102E0, 0x102E0);
  (0x10376, 0x1037A); (0x10780, 0x10785); (0x10787, 0x107B0); (0x107B2, 0x107BA);
  (0x10A01, 0x10A03); (0x10A05, 0x10A06); (0x10A0C, 0x10A0F); (0x10A38, 0x10A3A);
  (0x10A3F, 0x10A3F); (0x10AE5, 0x10AE6); (0x10D24, 0x10D27); (0x10EAB, 0x10EAC);
  (0x10F46, 0x10F50); (0x10F82, 0x10F85); (0x11001, 0x11001); (0x11038, 0x11046);
  (0x11070, 0x11070); (0x11073, 0x11074); (0x1107F, 0x11081); (0x110B3, 0x110B6);
  (0x110B9, 0x110BA); (0x110BD, 0x110BD); (0x110C2, 0x110C2); (0x110CD, 0x110CD);
  (0x11100, 0x11102); (0x11127, 0x1112B); (0x1112D, 0x11134); (0x11173, 0x11173);
  (0x11180, 0x11181); (0x111B6, 0x111BE); (0x111C9, 0x111CC); (0x111CF, 0x111CF);
  (0x1122F, 0x11231); (0x11234, 0x11234); (0x11236, 0x11237); (0x1123E, 0x1123E);
  (0x112DF, 0x112DF); (0x112E3, 0x112EA); (0x11300, 0x11301); (0x1133B, 0x1133C);
  (0x11340, 0x11340); (0x11366, 0x1136C); (0x11370, 0x11374); (0x11438, 0x1143F);
  (0x11442, 0x11444); (0x11446, 0x11446); (0x1145E, 0x1145E); (0x114B3, 0x114B8);
  (0x114BA, 0x114BA); (0x114BF, 0x114C0); (0x114C2, 0x114C3); (0x115B2, 0x115B5);
  (0x115BC, 0x115BD); (0x115BF, 0x115C0); (0x115DC, 0x115DD); (0x11633, 0x1163A);
  (0x1163D, 0x1163D); (0x1163F, 0x11640); (0x116AB, 0x116AB); (0x116AD, 0x116AD);
  (0x116B0, 0x116B5); (0x116B7, 0x116B7); (0x1171D, 0x1171F); (0x11722, 0x11725);
  (0x11727, 0x1172B); (0x1182F, 0x11837); (0x11839, 0x1183A); (0x1193B, 0x1193C);
  (0x1193E, 0x1193E); (0x11943, 0x11943); (0x119D4, 0x119D7); (0x119DA, 0x119DB);
  (0x119E0, 0x119E0); (0x11A01, 0x11A0A); (0x11A33, 0x11A38); (0x11A3B, 0x11A3E);
  (0x11A47, 0x11A47); (0x11A51, 0x11A56); (0x11A59, 0x11A5B); (0x11A8A, 0x11A96);
  (0x11A98, 0x11A99); (0x11C30, 0x11C36); (0x11C38, 0x11C3D); (0x11C3F, 0x11C3F);
  (0x11C92, 0x11CA7); (0x11CAA, 0x11CB0); (0x11CB2, 0x11CB3); (0x11CB5, 0x11CB6);
  (0x11D31, 0x11D36); (0x11D3A, 0x11D3A); (0x11D3C, 0x11D3D); (0x11D3F, 0x11D45);
  (0x11D47, 0x11D47); (0x11D90, 0x11D91); (0x11D95, 0x11D95); (0x11D97, 0x11D97);
  (0x11EF3, 0x11EF4); (0x13430, 0x13438); (0x16AF0, 0x16AF4); (0x16B30, 0x16B36);
  (0x16B40, 0x16B43); (0x16F4F, 0x16F4F); (0x16F8F, 0x16F9F); (0x16FE0, 0x16FE1);
  (0x16FE3, 0x16FE4); (0x1AFF0, 0x1AFF3); (0x1AFF5, 0x1AFFB); (0x1AFFD, 0x1AFFE);
  (0x1BC9D, 0x1BC9E); (0x1BCA0, 0x1BCA3); (0x1CF00, 0x1CF2D); (0x1CF30, 0x1CF46);
  (0x1D167, 0x1D169); (0x1D173, 0x1D182); (0x1D185, 0x1D18B); (0x1D1AA, 0x1D1AD);
  (0x1D242, 0x1D244); (0x1DA00, 0x1DA36); (0x1DA3B, 0x1DA6C); (0x1DA75, 0x1DA75);
  (0x1DA84, 0x1DA84); (0x1DA9B, 0x1DA9F); (0x1DAA1, 0x1DAAF); (0x1E000, 0x1E006);
  (0x1E008, 0x1E018); (0x1E01B, 0x1E021); (0x1E023, 0x1E024); (0x1E026, 0x1E02A);
  (0x1E130, 0x1E13D); (0x1E2AE, 0x1E2AE); (0x1E2EC, 0x1E2EF); (0x1E8D0, 0x1E8D6);
  (0x1E944, 0x1E94B); (0x1F3FB, 0x1F3FF); (0xE0001, 0xE0001); (0xE0020, 0xE007F);
  (0xE0100, 0xE01EF)].

(** Code points with the Cased property that are not Case_Ignorable, as
    closed ranges. *)
Definition cased_ranges : list (N * N) := [
  (0x41, 0x5A); (0x61, 0x7A); (0xAA, 0xAA); (0xB5, 0xB5); (0xBA, 0xBA); (0xC0, 0xD6);
  (0xD8, 0xF6); (0xF8, 0x1BA); (0x1BC, 0x1BF); (0x1C4, 0x293); (0x295, 0x2AF);
  (0x370, 0x373); (0x376, 0x377); (0x37B, 0x37D); (0x37F, 0x37F); (0x386, 0x386);
  (0x388, 0x38A); (0x38C, 0x38C); (0x38E, 0x3A1); (0x3A3, 0x3F5); (0x3F7, 0x481);
  (0x48A, 0x52F); (0x531, 0x556); (0x560, 0x588); (0x10A0, 0x10C5); (0x10C7, 0x10C7);
  (0x10CD, 0x10CD); (0x10D0, 0x10FA); (0x10FD, 0x10FF); (0x13A0, 0x13F5);
  (0x13F8, 0x13FD); (0x1C80, 0x1C88); (0x1C90, 0x1CBA); (0x1CBD, 0x1CBF);
  (0x1D00, 0x1D2B); (0x1D6B, 0x1D77); (0x1D79, 0x1D9A); (0x1E00, 0x1F15);
  (0x1F18, 0x1F1D); (0x1F20, 0x1F45); (0x1F48, 0x1F4D); (0x1F50, 0x1F57);
  (0x1F59, 0x1F59); (0x1F5B, 0x1F5B); (0x1F5D, 0x1F5D); (0x1F5F, 0x1F7D);
  (0x1F80, 0x1FB4); (0x1FB6, 0x1FBC); (0x1FBE, 0x1FBE); (0x1FC2, 0x1FC4);
  (0x1FC6, 0x1FCC); (0x1FD0, 0x1FD3); (0x1FD6, 0x1FDB); (0x1FE0, 0x1FEC);
  (0x1FF2, 0x1FF4); (0x1FF6, 0x1FFC); (0x2102, 0x2102); (0x2107, 0x2107);
  (0x210A, 0x2113); (0x2115, 0x2115); (0x2119, 0x211D); (0x2124, 0x2124);
  (0x2126, 0x2126); (0x2128, 0x2128); (0x212A, 0x212D); (0x212F, 0x2134);
  (0x2139, 0x2139); (0x213C, 0x213F); (0x2145, 0x2149); (0x214E, 0x214E);
  (0x2160, 0x217F); (0x2183, 0x2184); (0x24B6, 0x24E9); (0x2C00, 0x2C7B);
  (0x2C7E, 0x2CE4); (0x2CEB, 0x2CEE); (0x2CF2, 0x2CF3); (0x2D00, 0x2D25);
  (0x2D27, 0x2D27); (0x2D2D, 0x2D2D); (0xA640, 0xA66D); (0xA680, 0xA69B);
  (0xA722, 0xA76F); (0xA771, 0xA787); (0xA78B, 0xA78E); (0xA790, 0xA7CA);
  (0xA7D0, 0xA7D1); (0xA7D3, 0xA7D3); (0xA7D5, 0xA7D9); (0xA7F5, 0xA7F6);
  (0xA7FA, 0xA7FA); (0xAB30, 0xAB5A); (0xAB60, 0xAB68); (0xAB70, 0xABBF);
  (0xFB00, 0xFB06); (0xFB13, 0xFB17); (0xFF21, 0xFF3A); (0xFF41, 0xFF5A);
  (0x10400, 0x1044F); (0x104B0, 0x104D3); (0x104D8, 0x104FB); (0x10570, 0x1057A);
  (0x1057C, 0x1058A); (0x1058C, 0x10592); (0x10594, 0x10595); (0x10597, 0x105A1);
  (0x105A3, 0x105B1); (0x105B3, 0x105B9); (0x105BB, 0x105BC); (0x10C80, 0x10CB2);
  (0x10CC0, 0x10CF2); (0x118A0, 0x118DF); (0x16E40, 0x16E7F); (0x1D400, 0x1D454);
  (0x1D456, 0x1D49C); (0x1D49E, 0x1D49F); (0x1D4A2, 0x1D4A2); (0x1D4A5, 0x1D4A6);
  (0x1D4A9, 0x1D4AC); (0x1D4AE, 0x1D4B9); (0x1D4BB, 0x1D4BB); (0x1D4BD, 0x1D4C3);
  (0x1D4C5, 0x1D505); (0x1D507, 0x1D50A); (0x1D50D, 0x1D514); (0x1D516, 0x1D51C);
  (0x1D51E, 0x1D539); (0x1D53B, 0x1D53E); (0x1D540, 0x1D544); (0x1D546, 0x1D546);
  (0x1D54A, 0x1D550); (0x1D552, 0x1D6A5); (0x1D6A8, 0x1D6C0); (0x1D6C2, 0x1D6DA);
  (0x1D6DC, 0x1D6FA); (0x1D6FC, 0x1D714); (0x1D716, 0x1D734); (0x1D736, 0x1D74E);
  (0x1D750, 0x1D76E); (0x1D770, 0x1D788); (0x1D78A, 0x1D7A8); (0x1D7AA, 0x1D7C2);
  (0x1D7C4, 0x1D7CB); (0x1DF00, 0x1DF09); (0x1DF0B, 0x1DF1E); (0x1E900, 0x1E943);
  (0x1F130, 0x1F149); (0x1F150, 0x1F169); (0x1F170, 0x1F189)].

(** Code points with the Uppercase property ([Py_UNICODE_ISUPPER]), as runs
    [(start, count, stride)]. *)
Definition upper_runs : list (N * N * N) := [
  (0x41, 26, 1); (0xC0, 23, 1); (0xD8, 7, 1); (0x100, 28, 2); (0x139, 8, 2);
  (0x14A, 24, 2); (0x179, 3, 2); (0x181, 2, 1); (0x184, 2, 2); (0x187, 2, 2);
  (0x18A, 2, 1); (0x18E, 4, 1); (0x193, 2, 1); (0x196, 3, 1); (0x19C, 2, 1);
  (0x19F, 2, 1); (0x1A2, 3, 2); (0x1A7, 2, 2); (0x1AC, 2, 2); (0x1AF, 2, 2);
  (0x1B2, 2, 1); (0x1B5, 2, 2); (0x1B8, 1, 1); (0x1BC, 1, 1); (0x1C4, 1, 1);
  (0x1C7, 1, 1); (0x1CA, 1, 1); (0x1CD, 8, 2); (0x1DE, 9, 2); (0x1F1, 1, 1);
  (0x1F4, 2, 2); (0x1F7, 2, 1); (0x1FA, 29, 2); (0x23A, 2, 1); (0x23D, 2, 1);
  (0x241, 2, 2); (0x244, 3, 1); (0x248, 4, 2); (0x370, 2, 2); (0x376, 1, 1);
  (0x37F, 1, 1); (0x386, 2, 2); (0x389, 2, 1); (0x38C, 2, 2); (0x38F, 2, 2);
  (0x392, 16, 1); (0x3A3, 9, 1); (0x3CF, 1, 1); (0x3D2, 3, 1); (0x3D8, 12, 2);
  (0x3F4, 1, 1); (0x3F7, 2, 2); (0x3FA, 1, 1); (0x3FD, 51, 1); (0x460, 17, 2);
  (0x48A, 28, 2); (0x4C1, 7, 2); (0x4D0, 48, 2); (0x531, 38, 1); (0x10A0, 38, 1);
  (0x10C7, 1, 1); (0x10CD, 1, 1); (0x13A0, 86, 1); (0x1C90, 43, 1); (0x1CBD, 3, 1);
  (0x1E00, 75, 2); (0x1E9E, 49, 2); (0x1F08, 8, 1); (0x1F18, 6, 1); (0x1F28, 8, 1);
  (0x1F38, 8, 1); (0x1F48, 6, 1); (0x1F59, 4, 2); (0x1F68, 8, 1); (0x1FB8, 4, 1);
  (0x1FC8, 4, 1); (0x1FD8, 4, 1); (0x1FE8, 5, 1); (0x1FF8, 4, 1); (0x2102, 1, 1);
  (0x2107, 1, 1); (0x210B, 3, 1); (0x2110, 3, 1); (0x2115, 1, 1); (0x2119, 5, 1);
  (0x2124, 4, 2); (0x212B, 3, 1); (0x2130, 4, 1); (0x213E, 2, 1); (0x2145, 1, 1);
  (0x2160, 16, 1); (0x2183, 1, 1); (0x24B6, 26, 1); (0x2C00, 48, 1); (0x2C60, 2, 2);
  (0x2C63, 2, 1); (0x2C67, 4, 2); (0x2C6E, 3, 1); (0x2C72, 1, 1); (0x2C75, 1, 1);
  (0x2C7E, 3, 1); (0x2C82, 49, 2); (0x2CEB, 2, 2); (0x2CF2, 1, 1); (0xA640, 23, 2);
  (0xA680, 14, 2); (0xA722, 7, 2); (0xA732, 31, 2); (0xA779, 3, 2); (0xA77E, 5, 2);
  (0xA78B, 2, 2); (0xA790, 2, 2); (0xA796, 11, 2); (0xA7AB, 4, 1); (0xA7B0, 5, 1);
  (0xA7B6, 8, 2); (0xA7C5, 3, 1); (0xA7C9, 1, 1); (0xA7D0, 1, 1); (0xA7D6, 2, 2);
  (0xA7F5, 1, 1); (0xFF21, 26, 1); (0x10400, 40, 1); (0x104B0, 36, 1); (0x10570, 11, 1);
  (0x1057C, 15, 1); (0x1058C, 7, 1); (0x10594, 2, 1); (0x10C80, 51, 1);
  (0x118A0, 32, 1); (0x16E40, 32, 1); (0x1D400, 26, 1); (0x1D434, 26, 1);
  (0x1D468, 26, 1); (0x1D49C, 2, 2); (0x1D49F, 1, 1); (0x1D4A2, 1, 1); (0x1D4A5, 2, 1);
  (0x1D4A9, 4, 1); (0x1D4AE, 8, 1); (0x1D4D0, 26, 1); (0x1D504, 2, 1); (0x1D507, 4, 1);
  (0x1D50D, 8, 1); (0x1D516, 7, 1); (0x1D538, 2, 1); (0x1D53B, 4, 1); (0x1D540, 5, 1);
  (0x1D546, 1, 1); (0x1D54A, 7, 1); (0x1D56C, 26, 1); (0x1D5A0, 26, 1);
  (0x1D5D4, 26, 1); (0x1D608, 26, 1); (0x1D63C, 26, 1); (0x1D670, 26, 1);
  (0x1D6A8, 25, 1); (0x1D6E2, 25, 1); (0x1D71C, 25, 1); (0x1D756, 25, 1);
  (0x1D790, 25, 1); (0x1D7CA, 1, 1); (0x1E900, 34, 1); (0x1F130, 26, 1);
  (0x1F150, 26, 1); (0x1F170, 26, 1)].

(** Code points with the Lowercase property ([Py_UNICODE_ISLOWER]), as runs. *)
Definition lower_flag_runs : list (N * N * N) := [
  (0x61, 26, 1); (0xAA, 1, 1); (0xB5, 1, 1); (0xBA, 1, 1); (0xDF, 24, 1); (0xF8, 8, 1);
  (0x101, 28, 2); (0x138, 9, 2); (0x149, 24, 2); (0x17A, 3, 2); (0x17F, 2, 1);
  (0x183, 2, 2); (0x188, 1, 1); (0x18C, 2, 1); (0x192, 1, 1); (0x195, 1, 1);
  (0x199, 3, 1); (0x19E, 1, 1); (0x1A1, 3, 2); (0x1A8, 2, 2); (0x1AB, 2, 2);
  (0x1B0, 1, 1); (0x1B4, 2, 2); (0x1B9, 2, 1); (0x1BD, 3, 1); (0x1C6, 1, 1);
  (0x1C9, 1, 1); (0x1CC, 9, 2); (0x1DD, 10, 2); (0x1F0, 1, 1); (0x1F3, 2, 2);
  (0x1F9, 30, 2); (0x234, 6, 1); (0x23C, 1, 1); (0x23F, 2, 1); (0x242, 1, 1);
  (0x247, 5, 2); (0x250, 68, 1); (0x295, 36, 1); (0x2C0, 2, 1); (0x2E0, 5, 1);
  (0x345, 1, 1); (0x371, 2, 2); (0x377, 1, 1); (0x37A, 4, 1); (0x390, 1, 1);
  (0x3AC, 35, 1); (0x3D0, 2, 1); (0x3D5, 3, 1); (0x3D9, 12, 2); (0x3F0, 4, 1);
  (0x3F5, 1, 1); (0x3F8, 1, 1); (0x3FB, 2, 1); (0x430, 48, 1); (0x461, 17, 2);
  (0x48B, 27, 2); (0x4C2, 7, 2); (0x4CF, 49, 2); (0x560, 41, 1); (0x10D0, 43, 1);
  (0x10FD, 3, 1); (0x13F8, 6, 1); (0x1C80, 9, 1); (0x1D00, 192, 1); (0x1E01, 75, 2);
  (0x1E96, 8, 1); (0x1E9F, 49, 2); (0x1F00, 8, 1); (0x1F10, 6, 1); (0x1F20, 8, 1);
  (0x1F30, 8, 1); (0x1F40, 6, 1); (0x1F50, 8, 1); (0x1F60, 8, 1); (0x1F70, 14, 1);
  (0x1F80, 8, 1); (0x1F90, 8, 1); (0x1FA0, 8, 1); (0x1FB0, 5, 1); (0x1FB6, 2, 1);
  (0x1FBE, 1, 1); (0x1FC2, 3, 1); (0x1FC6, 2, 1); (0x1FD0, 4, 1); (0x1FD6, 2, 1);
  (0x1FE0, 8, 1); (0x1FF2, 3, 1); (0x1FF6, 2, 1); (0x2071, 1, 1); (0x207F, 1, 1);
  (0x2090, 13, 1); (0x210A, 1, 1); (0x210E, 2, 1); (0x2113, 1, 1); (0x212F, 1, 1);
  (0x2134, 1, 1); (0x2139, 1, 1); (0x213C, 2, 1); (0x2146, 4, 1); (0x214E, 1, 1);
  (0x2170, 16, 1); (0x2184, 1, 1); (0x24D0, 26, 1); (0x2C30, 48, 1); (0x2C61, 1, 1);
  (0x2C65, 2, 1); (0x2C68, 3, 2); (0x2C71, 2, 2); (0x2C74, 2, 2); (0x2C77, 7, 1);
  (0x2C81, 50, 2); (0x2CE4, 1, 1); (0x2CEC, 2, 2); (0x2CF3, 1, 1); (0x2D00, 38, 1);
  (0x2D27, 1, 1); (0x2D2D, 1, 1); (0xA641, 23, 2); (0xA681, 14, 2); (0xA69C, 2, 1);
  (0xA723, 7, 2); (0xA730, 2, 1); (0xA733, 31, 2); (0xA770, 9, 1); (0xA77A, 2, 2);
  (0xA77F, 5, 2); (0xA78C, 2, 2); (0xA791, 2, 2); (0xA794, 2, 1); (0xA797, 10, 2);
  (0xA7AF, 1, 1); (0xA7B5, 8, 2); (0xA7C8, 2, 2); (0xA7D1, 5, 2); (0xA7F6, 2, 2);
  (0xA7F9, 2, 1); (0xAB30, 43, 1); (0xAB5C, 13, 1); (0xAB70, 80, 1); (0xFB00, 7, 1);
  (0xFB13, 5, 1); (0xFF41, 26, 1); (0x10428, 40, 1); (0x104D8, 36, 1); (0x10597, 11, 1);
  (0x105A3, 15, 1); (0x105B3, 7, 1); (0x105BB, 2, 1); (0x10780, 1, 1); (0x10783, 3, 1);
  (0x10787, 42, 1); (0x107B2, 9, 1); (0x10CC0, 51, 1); (0x118C0, 32, 1);
  (0x16E60, 32, 1); (0x1D41A, 26, 1); (0x1D44E, 7, 1); (0x1D456, 18, 1);
  (0x1D482, 26, 1); (0x1D4B6, 4, 1); (0x1D4BB, 2, 2); (0x1D4BE, 6, 1); (0x1D4C5, 11, 1);
  (0x1D4EA, 26, 1); (0x1D51E, 26, 1); (0x1D552, 26, 1); (0x1D586, 26, 1);
  (0x1D5BA, 26, 1); (0x1D5EE, 26, 1); (0x1D622, 26, 1); (0x1D656, 26, 1);
  (0x1D68A, 28, 1); (0x1D6C2, 25, 1); (0x1D6DC, 6, 1); (0x1D6FC, 25, 1);
  (0x1D716, 6, 1); (0x1D736, 25, 1); (0x1D750, 6, 1); (0x1D770, 25, 1); (0x1D78A, 6, 1);
  (0x1D7AA, 25, 1); (0x1D7C4, 6, 1); (0x1D7CB, 1, 1); (0x1DF00, 10, 1);
  (0x1DF0B, 20, 1); (0x1E922, 34, 1)].

(** Title-case letters, category Lt ([Py_UNICODE_ISTITLE]), as runs. *)
Definition title_runs : list (N * N * N) := [
  (0x1C5, 1, 1); (0x1C8, 1, 1); (0x1CB, 1, 1); (0x1F2, 1, 1); (0x1F88, 8, 1);
  (0x1F98, 8, 1); (0x1FA8, 8, 1); (0x1FBC, 1, 1); (0x1FCC, 1, 1); (0x1FFC, 1, 1)].

Definition in_range (c : N) (r : N * N) : bool :=
  let '(lo, hi) := r in (lo <=? c) && (c <=? hi).

(** [c] is [start + stride * i] for some [i < count]. *)
Definition in_run (c start count stride : N) : bool :=
  (start <=? c) && ((c - start) mod stride =? 0) && (c - start <? stride * count).

(** [_PyUnicode_IsCaseIgnorable] *)
Definition is_case_ignorable (c : N) : bool := existsb (in_range c) case_ignorable_ranges.

(** [_PyUnicode_IsCased], on the code points that are not case-ignorable:
    the only ones [handle_capital_sigma] asks it about. *)
Definition is_cased (c : N) : bool := existsb (in_range c) cased_ranges.

(** [Py_UNICODE_ISUPPER], [Py_UNICODE_ISLOWER], [Py_UNICODE_ISTITLE] *)
Definition is_upper_cp (c : N) : bool :=
  existsb (fun '(s, n, k) => in_run c s n k) upper_runs.
Definition is_lower_cp (c : N) : bool :=
  existsb (fun '(s, n, k) => in_run c s n k) lower_flag_runs.
Definition is_title_cp (c : N) : bool :=
  existsb (fun '(s, n, k) => in_run c s n k) title_runs.

(** [_PyUnicode_ToLowerFull]: U+0130 is the one code point whose lower
    case is two code points. *)
Definition to_lower_full (c : N) : list N :=
  if c =? 0x130 then [0x69; 0x307]
  else match find (fun '(s, n, k, _) => in_run c s n k) lower_runs with
       | Some (s, _, _, t) => [t + (c - s)]
       | None => [c]
       end.

Fixpoint skip_case_ignorable (cs : list N) : option N :=
  match cs with
  | [] => None
  | c :: rest => if is_case_ignorable c then skip_case_ignorable rest else Some c
  end.

(** [handle_capital_sigma]: the final form U+03C2 in the Final_Sigma
    context, U+03C3 otherwise; [before] holds the code points before the
    sigma, nearest first. *)
Definition handle_capital_sigma (before after : list N) : N :=
  let final_sigma :=
    match skip_case_ignorable before with
    | Some c => is_cased c
    | None => false
    end in
  let final_sigma :=
    if final_sigma
    then match skip_case_ignorable after with
         | Some c => negb (is_cased c)
         | None => true
         end
    else false in
  if final_sigma then 0x3C2 else 0x3C3.

(** [lower_ucs4] at each position of the string. *)
Fixpoint lower_cps (before : list N) (cs : list N) : list N :=
  match cs with
  | [] => []
  | c :: after =>
      (if c =? 0x3A3 then [handle_capital_sigma before after] else to_lower_full c)
      ++ lower_cps (c :: before) after
  end.

(** [unicode_isupper_impl] *)
Definition isupper_cps (cs : list N) : bool :=
  match cs with
  | [] => false
  | [c] => is_upper_cp c
  | _ => forallb (fun c => negb (is_lower_cp c || is_title_cp c)) cs
         && existsb is_upper_cp cs
  end.

Definition is_cont (b : N) : bool := (0x80 <=? b) && (b <=? 0xBF).

(** [surrogateescape] *)
Definition escape (b : N) : N := 0xDC00 + b.

(** UTF-8 decoding with [surrogateescape]. *)
Fixpoint utf8_decode (s : string) : list N :=
  match s with
  | EmptyString => []
  | String a s1 =>
      let b0 := N_of_ascii a in
      if b0 <? 0x80 then b0 :: utf8_decode s1
      else if (0xC2 <=? b0) && (b0 <=? 0xDF) then
        match s1 with
        | String a1 s2 =>
            let b1 := N_of_ascii a1 in
            if is_cont b1 then ((b0 - 0xC0) * 64 + (b1 - 0x80)) :: utf8_decode s2
            else escape b0 :: utf8_decode s1
        | EmptyString => [escape b0]
        end
      else if (0xE0 <=? b0) && (b0 <=? 0xEF) then
        match s1 with
        | String a1 (String a2 s3) =>
            let b1 := N_of_ascii a1 in
            let b2 := N_of_ascii a2 in
            let lo1 := if b0 =? 0xE0 then 0xA0 else 0x80 in
            let hi1 := if b0 =? 0xED then 0x9F else 0xBF in
            if (lo1 <=? b1) && (b1 <=? hi1) && is_cont b2
            then ((b0 - 0xE0) * 4096 + (b1 - 0x80) * 64 + (b2 - 0x80)) :: utf8_decode s3
            else escape b0 :: utf8_decode s1
        | _ => escape b0 :: utf8_decode s1
        end
      else if (0xF0 <=? b0) && (b0 <=? 0xF4) then
        match s1 with
        | String a1 (String a2 (String a3 s4)) =>
            let b1 := N_of_ascii a1 in
            let b2 := N_of_ascii a2 in
            let b3 := N_of_ascii a3 in
            let lo1 := if b0 =? 0xF0 then 0x90 else 0x80 in
            let hi1 := if b0 =? 0xF4 then 0x8F else 0xBF in
            if (lo1 <=? b1) && (b1 <=? hi1) && is_cont b2 && is_cont b3
            then ((b0 - 0xF0) * 262144 + (b1 - 0x80) * 4096 + (b2 - 0x80) * 64
                  + (b3 - 0x80)) :: utf8_decode s4
            else escape b0 :: utf8_decode s1
        | _ => escape b0 :: utf8_decode s1
        end
      else escape b0 :: utf8_decode s1
  end.

Definition cont_byte (n : N) : ascii := ascii_of_N (0x80 + n mod 64).

(** UTF-8 encoding with [surrogateescape]. *)
Definition utf8_encode_cp (c : N) : string :=
  if c <? 0x80 then String (ascii_of_N c) EmptyString
  else if (0xDC80 <=? c) && (c <=? 0xDCFF)
  then String (ascii_of_N (c - 0xDC00)) EmptyString
  else if c <? 0x800
  then String (ascii_of_N (0xC0 + c / 64)) (String (cont_byte c) EmptyString)
  else if c <? 0x10000
  then String (ascii_of_N (0xE0 + c / 4096))
         (String (cont_byte (c / 64)) (String (cont_byte c) EmptyString))
  else String (ascii_of_N (0xF0 + (c / 262144) mod 8))
         (String (cont_byte (c / 4096))
            (String (cont_byte (c / 64)) (String (cont_byte c) EmptyString))).

Fixpoint utf8_encode (cs : list N) : string :=
  match cs with
  | [] => EmptyString
  | c :: rest => String.append (utf8_encode_cp c) (utf8_encode rest)
  end.

(** One of the ASCII capitals A..Z. *)
Definition ascii_upper_cp (c : N) : bool := (65 <=? c) && (c <=? 90).

End Unicode.

(** [str.lower()] *)
Definition lower (s : string) : string := utf8_encode (lower_cps [] (utf8_decode s)).

(** [str.isupper()] *)
Definition isupper (s : string) : bool := isupper_cps (utf8_decode s).

Definition is_ascii_upper (c : ascii) : bool := ascii_upper_cp (N_of_ascii c).

(** The string holds one of the ASCII capitals A..Z. *)
Fixpoint has_ascii_upper (s : string) : bool :=
  match s with
  | EmptyString => false
  | String c s' => is_ascii_upper c || has_ascii_upper s'
  end.

(** Decimal rendering of a natural number, for f-strings. *)
Fixpoint digits (fuel n : nat) (acc : string) : string :=
  match fuel with
  | O => acc
  | S f =>
      let acc' := String (ascii_of_nat (48 + n mod 10)) acc in
      if Nat.ltb n 10 then acc' else digits f (n / 10) acc'
  end.
Definition str_of_nat (n : nat) : string := digits (S n) n "".

(** [text.split("/")] *)
Fixpoint split_slash_aux (s : string) (cur : string) : list string :=
  match s with
  | EmptyString => [cur]
  | String c s' =>
      if Ascii.eqb c "/"%char then cur :: split_slash_aux s' ""
      else split_slash_aux s' (cur ++ String c "")
  end.
Definition split_slash (s : string) : list string := split_slash_aux s "".

(** [needle in hay] for Python strings. *)
Fixpoint contains (needle hay : string) : bool :=
  if String.prefix needle hay then true
  else match hay with
       | EmptyString => false
       | String _ h => contains needle h
       end.

Fixpoint mem_str (x : string) (l : list string) : bool :=
  match l with
  | [] => false
  | y :: l' => String.eqb x y || mem_str x l'
  end.

(* ------------------------------------------------------------------ *)
(** ** pathlib *)

(** Lexical normalisation performed by [Path.resolve()]: ["."] and empty
    components vanish, [".."] drops the previous component (and stays at
    the root).  The filesystem model has no symbolic links. *)
Fixpoint normalize_aux (acc : list string) (cs : list string) : list string :=
  match cs with
  | [] => rev acc
  | c :: cs' =>
      if String.eqb c "" || String.eqb c "." then normalize_aux acc cs'
      else if String.eqb c ".." then normalize_aux (tl acc) cs'
      else normalize_aux (c :: acc) cs'
  end.

(** [Path(p).resolve()]: a relative path is taken from the working
    directory [cwd]. *)
Definition resolve (cwd : path) (p : string) : path :=
  match p with
  | String "/"%char _ => normalize_aux [] (split_slash p)
  | _ => normalize_aux (rev cwd) (split_slash p)
  end.

(** [Path.is_relative_to(base)] *)
Fixpoint is_relative_to (p base : path) : bool :=
  match base, p with
  | [], _ => true
  | b :: base', c :: p' => String.eqb b c && is_relative_to p' base'
  | _ :: _, [] => false
  end.

(** [Path.relative_to(base)]: raises [ValueError] when [p] is not below
    [base]. *)
Fixpoint relative_to (p base : path) : Res path :=
  match base, p with
  | [], _ => ROk p
  | b :: base', c :: p' =>
      if String.eqb b c then relative_to p' base' else RErr ValueError
  | _ :: _, [] => RErr ValueError
  end.

(** [str(relative path)] with forward slashes. *)
Fixpoint join_slash (p : path) : string :=
  match p with
  | [] => "."
  | [c] => c
  | c :: p' => c ++ "/" ++ join_slash p'
  end.

(** Position of the last ['.'] of a string. *)
Fixpoint rfind_dot_aux (s : string) (i : nat) (best : option nat) : option nat :=
  match s with
  | EmptyString => best
  | String c s' =>
      rfind_dot_aux s' (S i) (if Ascii.eqb c "."%char then Some i else best)
  end.

(** [PurePath.suffix]: the part of the final component from its last dot,
    when that dot is neither the first nor the last character. *)
Definition suffix (p : path) : string :=
  let name := last p "" in
  match rfind_dot_aux name 0 None with
  | Some i =>
      if Nat.ltb 0 i && Nat.ltb i (String.length name - 1)
      then substring i (String.length name - i) name
      else ""
  | None => ""
  end.

(** [PurePath(s).parts] without the anchor: [s] is split on ["/"], empty
    and ["."] components vanish; [".."] is kept (a pure path is not
    resolved).  The boolean says whether [s] is absolute. *)
Definition pure_parts (s : string) : bool * list string :=
  (match s with String "/"%char _ => true | _ => false end,
   filter (fun c => negb (String.eqb c "" || String.eqb c ".")) (split_slash s)).

(** [file_path.relative_to(directory_path)] where [file_path] is an
    absolute resolved path and [directory_path] is the string the caller
    passed: a relative [directory_path] has another anchor, so pathlib
    raises [ValueError]. *)
Definition relative_to_str (p : path) (dp : string) : Res path :=
  let (abs, parts) := pure_parts dp in
  if abs then relative_to p parts else RErr ValueError.

(** [str(p)] of an absolute path. *)
Definition path_str (p : path) : string :=
  "/" ++ String.concat "/" p.

(* ------------------------------------------------------------------ *)
(** ** The document model exposed by the PDF backend *)

(** Raw bytes, and their base64 transport encoding (kept abstract: the
    encoded text is a function of the bytes only). *)
Definition bytes := string.
Inductive b64 := B64 (raw : bytes).

(** A bounding box [(x0, y0, x1, y1)] in page coordinates; coordinates are
    only copied, never computed with. *)
Definition Rect := (Z * Z * Z * Z)%type.

(** An entry of [page.get_text("blocks")]: [block[:4]] and [block[4]]. *)
Record Block := { blk_bbox : Rect; blk_text : string }.

(** An entry of [page.get_images(full=True)] together with the outcome of
    every backend call made on it. *)
Record Img := {
  img_xref : nat;
  img_extract : Res bytes;        (* doc.extract_image(xref)["image"] *)
  img_decode : Res unit;          (* Image.open(io.BytesIO(image_bytes)) *)
  img_bbox_item : Res Rect;       (* page.get_image_bbox(img) *)
  img_bbox_xref : Res Rect;       (* page.get_image_bbox(xref) *)
  img_ocr : Res string            (* pytesseract.image_to_string(image) *)
}.

(** A table found by [page.find_tables()]. *)
Record Table := {
  tab_cells : nat;                              (* len(table.cells) *)
  tab_bbox : Rect;                              (* table.bbox *)
  tab_extract : Res (list (list (option string)))  (* table.extract() *)
}.

(** An entry of [page.get_drawings()]. *)
Record Drawing := { drw_items : nat; drw_rect : Rect }.

(** One page: the outcome of each page-level backend call. *)
Record Page := {
  pg_text : Res string;             (* page.get_text() *)
  pg_blocks : Res (list Block);     (* page.get_text("blocks") *)
  pg_images : Res (list Img);       (* page.get_images(full=True) *)
  pg_tables : Res (list Table);     (* page.find_tables() *)
  pg_drawings : Res (list Drawing); (* page.get_drawings() *)
  pg_pixmap : Res bytes             (* get_pixmap, Image.frombytes, save PNG *)
}.

(** An opened [pymupdf.Document]: what [len(doc)] returns or raises, and
    what [doc[i]] (PyMuPDF's [load_page]) returns or raises for each page
    index. *)
Record Document := {
  doc_len : Res nat;
  doc_pages : list (Res Page)
}.

(** [doc[i]]: an index past the stored pages raises [IndexError]. *)
Definition doc_getitem (doc : Document) (i : nat) : Res Page :=
  match nth_error (doc_pages doc) i with
  | Some r => r
  | None => RErr IndexError
  end.

(* ------------------------------------------------------------------ *)
(** ** Output records *)

Record TextRecord := { tr_page_number : nat; tr_content : string }.

Record TableRecord := {
  tb_page_number : nat;
  tb_content : list (list (string * option string));  (* records, JSON keys *)
  tb_columns : list nat;
  tb_shape : nat * nat
}.

Record ImageRecord := {
  im_page_number : nat; im_content : string; im_image_data : b64 }.

Record PageImageRecord := {
  pi_page_number : nat; pi_image : option b64; pi_error : option string }.

Inductive SegType := SText | SImage | STable | SChart | SLatex.

Record Segment := {
  seg_type : SegType; seg_content : string; seg_bbox : Rect;
  seg_image_data : option b64 }.

Record SegmentPage := { sp_page_number : nat; sp_segments : list Segment }.

(** An element of one of the lists of a DocumentResult. *)
Inductive Item :=
| ITxt (r : TextRecord)
| ITab (r : TableRecord)
| IImg (r : ImageRecord)
| IPg (r : PageImageRecord)
| ISeg (r : SegmentPage).

(** A DocumentResult: a Python dict from key to list, in insertion order. *)
Definition DocumentResult := list (string * list Item).

Fixpoint lookup (k : string) (d : DocumentResult) : option (list Item) :=
  match d with
  | [] => None
  | (k', v) :: d' => if String.eqb k k' then Some v else lookup k d'
  end.

(** [d.setdefault(k, []).extend(xs)] ([append] is the singleton case). *)
Fixpoint setdefault_extend (k : string) (xs : list Item) (d : DocumentResult)
  : DocumentResult :=
  match d with
  | [] => [(k, xs)]
  | (k', v) :: d' =>
      if String.eqb k k' then (k', v ++ xs) :: d'
      else (k', v) :: setdefault_extend k xs d'
  end.

Definition keys (d : DocumentResult) : list string := map fst d.

(* ------------------------------------------------------------------ *)
(** ** Page extractors *)

(** [_extract_text_from_page] *)
Definition _extract_text_from_page (page : Page) (page_num : nat) : TextRecord :=
  match pg_text page with
  | ROk text => {| tr_page_number := page_num + 1; tr_content := text |}
  | RErr _ =>
      {| tr_page_number := page_num + 1;
         tr_content := "Error: Unable to extract text from page "
                         ++ str_of_nat (page_num + 1) |}
  end.

(** [pd.DataFrame(rows)]: integer column labels [0 .. ncols-1], where
    [ncols] is the longest row; short rows are padded with [None]. *)
Definition df_ncols (rows : list (list (option string))) : nat :=
  fold_right (fun r m => Nat.max (length r) m) 0 rows.

(** [json.loads(json.dumps(df.to_dict(orient="records")))]: one mapping
    per row, the column labels turned into JSON object keys. *)
Definition df_records (rows : list (list (option string)))
  : list (list (string * option string)) :=
  map (fun r => map (fun j => (str_of_nat j, match nth_error r j with
                                             | Some c => c | None => None end))
                    (seq 0 (df_ncols rows)))
      rows.

(** The record built for one table; [table.extract()] may raise. *)
Definition table_record (page_num : nat) (t : Table) : Res TableRecord :=
  match tab_extract t with
  | RErr k => RErr k
  | ROk rows =>
      ROk {| tb_page_number := page_num + 1;
             tb_content := df_records rows;
             tb_columns := seq 0 (df_ncols rows);
             tb_shape := (length rows, df_ncols rows) |}
  end.

(** The [for table in tables: result.append(...)] loop: the first
    exception leaves the loop. *)
Fixpoint table_loop (page_num : nat) (ts : list Table) : Res (list TableRecord) :=
  match ts with
  | [] => ROk []
  | t :: ts' =>
      match table_record page_num t with
      | RErr k => RErr k
      | ROk r =>
          match table_loop page_num ts' with
          | RErr k => RErr k
          | ROk rs => ROk (r :: rs)
          end
      end
  end.

(** [_extract_tables_from_page]: any exception yields [[]]. *)
Definition _extract_tables_from_page (page : Page) (page_num : nat)
  : list TableRecord :=
  match pg_tables page with
  | RErr _ => []
  | ROk ts => match table_loop page_num ts with ROk rs => rs | RErr _ => [] end
  end.

(** Body of the per-image [try] of [_extract_images_from_page]; every
    exception of the body is caught, and the image is skipped. *)
Definition image_record (page_num : nat) (img : Img) : list ImageRecord :=
  match img_extract img with
  | RErr _ => []
  | ROk image_bytes =>
      if String.eqb image_bytes "" then []
      else match img_decode img with
           | RErr _ => []
           | ROk _ =>
               match img_ocr img with
               | RErr _ => []
               | ROk s => [{| im_page_number := page_num + 1; im_content := s;
                              im_image_data := B64 image_bytes |}]
               end
           end
  end.

(** [_extract_images_from_page] *)
Definition _extract_images_from_page (page : Page) (page_num : nat)
  : list ImageRecord :=
  match pg_images page with
  | RErr _ => []
  | ROk image_list => flat_map (image_record page_num) image_list
  end.

(** [_convert_page_as_image] *)
Definition _convert_page_as_image (page : Page) (page_num : nat) : PageImageRecord :=
  match pg_pixmap page with
  | ROk png => {| pi_page_number := page_num + 1; pi_image := Some (B64 png);
                  pi_error := None |}
  | RErr _ =>
      {| pi_page_number := page_num + 1; pi_image := None;
         pi_error := Some (String.append "Error converting page "
                             (String.append (str_of_nat (page_num + 1)) " to image")) |}
  end.

(** *** [_extract_segments_from_page] *)

Definition text_segment (block : Block) : Segment :=
  {| seg_type := SText; seg_content := blk_text block; seg_bbox := blk_bbox block;
     seg_image_data := None |}.

(** Body of the per-image [try] of the image-segment stage, in the order
    of its calls: [extract_image], [Image.open], [get_image_bbox(img)],
    then OCR while the segment dict is built. *)
Definition image_segment_body (img : Img) : Res (list Segment) :=
  match img_extract img with
  | RErr k => RErr k
  | ROk image_bytes =>
      if String.eqb image_bytes "" then ROk []
      else match img_decode img with
           | RErr k => RErr k
           | ROk _ =>
               match img_bbox_item img with
               | RErr k => RErr k
               | ROk image_rect =>
                   match img_ocr img with
                   | RErr k => RErr k
                   | ROk s => ROk [{| seg_type := SImage; seg_content := s;
                                      seg_bbox := image_rect;
                                      seg_image_data := Some (B64 image_bytes) |}]
                   end
               end
           end
  end.

(** The per-image [try] with its three handlers: [FileDataError] skips,
    [ValueError] falls back to a degraded segment when the bounding box can
    still be read, any other exception skips. *)
Definition image_segment (img : Img) : list Segment :=
  match image_segment_body img with
  | ROk segs => segs
  | RErr FileDataError => []
  | RErr ValueError =>
      match img_bbox_xref img with
      | ROk image_rect =>
          [{| seg_type := SImage; seg_content := "Image data not available";
              seg_bbox := image_rect; seg_image_data := None |}]
      | RErr _ => []
      end
  | RErr _ => []
  end.

Definition table_segment (t : Table) : Segment :=
  {| seg_type := STable;
     seg_content := String.append "Table ("
                      (String.append (str_of_nat (tab_cells t)) " cells)");
     seg_bbox := tab_bbox t; seg_image_data := None |}.

(** [if len(drawing["items"]) > 10] *)
Definition chart_segment (d : Drawing) : list Segment :=
  if Nat.ltb 10 (drw_items d)
  then [{| seg_type := SChart; seg_content := "Possible chart";
           seg_bbox := drw_rect d; seg_image_data := None |}]
  else [].

(** [latex_patterns] *)
Definition latex_patterns : list string :=
  ["\begin{equation}"; "\end{equation}"; "\frac{"; "\sum_"].

Definition latex_segment (block : Block) : list Segment :=
  if existsb (fun pattern => contains pattern (blk_text block)) latex_patterns
  then [{| seg_type := SLatex; seg_content := blk_text block;
           seg_bbox := blk_bbox block; seg_image_data := None |}]
  else [].

(** [_extract_segments_from_page]: the five stages share one [try]; the
    [segments] list is appended in place, so an exception raised by a
    page-level call ([get_text("blocks")], [get_images], [find_tables],
    [get_drawings]) keeps the segments gathered so far and skips the rest. *)
Definition _extract_segments_from_page (page : Page) (page_num : nat) : SegmentPage :=
  let segments :=
    match pg_blocks page with
    | RErr _ => []
    | ROk text_blocks =>
        let s1 := map text_segment text_blocks in
        match pg_images page with
        | RErr _ => s1
        | ROk image_list =>
            let s2 := s1 ++ flat_map image_segment image_list in
            match pg_tables page with
            | RErr _ => s2
            | ROk tables =>
                let s3 := s2 ++ map table_segment tables in
                match pg_drawings page with
                | RErr _ => s3
                | ROk drawings =>
                    let s4 := s3 ++ flat_map chart_segment drawings in
                    s4 ++ flat_map latex_segment text_blocks
                end
            end
        end
    end in
  {| sp_page_number := page_num + 1; sp_segments := segments |}.

(* ------------------------------------------------------------------ *)
(** ** Safe-mode configuration and the filesystem *)

(** [SafeModeConfig]; the process-wide [SAFE_MODE_CONFIG] is threaded
    explicitly through the functions that read or write it. *)
Record SafeModeConfig := {
  enabled : bool;
  base_directory : path;           (* already resolved *)
  allowed_extensions : list string
}.

Definition set_enabled (cfg : SafeModeConfig) (b : bool) : SafeModeConfig :=
  {| enabled := b; base_directory := base_directory cfg;
     allowed_extensions := allowed_extensions cfg |}.

Inductive FileKind := KFile | KDir | KMissing.

(** The filesystem and the PDF backend's [open]. *)
Record FS := {
  fs_cwd : path;
  fs_kind : path -> FileKind;             (* is_file() / is_dir() *)
  fs_walk : path -> list path;            (* Path(root) / file over os.walk *)
  fs_open : path -> Res Document;         (* pymupdf.open(str(file_path)) *)
  fs_open_stream : bytes -> Res Document  (* pymupdf.open(stream=...) *)
}.

Definition is_file (fs : FS) (p : path) : bool :=
  match fs_kind fs p with KFile => true | _ => false end.
Definition is_dir (fs : FS) (p : path) : bool :=
  match fs_kind fs p with KDir => true | _ => false end.

(** [SafeModeConfig(enabled, base_directory, allowed_extensions)]:
    [base_directory or Path.cwd()] falls back to the working directory for
    [None] and for the falsy [""], and the result is resolved;
    [allowed_extensions or {".pdf"}] falls back for [None] and for an
    empty set. *)
Definition SafeModeConfig_init (fs : FS) (enabled0 : bool)
    (base_directory0 : option string) (allowed_extensions0 : option (list string))
  : SafeModeConfig :=
  {| enabled := enabled0;
     base_directory :=
       match base_directory0 with
       | Some s => if String.eqb s "" then resolve (fs_cwd fs) (path_str (fs_cwd fs))
                   else resolve (fs_cwd fs) s
       | None => resolve (fs_cwd fs) (path_str (fs_cwd fs))
       end;
     allowed_extensions :=
       match allowed_extensions0 with
       | Some ((_ :: _) as exts) => exts
       | _ => [".pdf"]
       end |}.

(** [set_safe_mode]: the global [SAFE_MODE_CONFIG] is replaced by a new
    configuration; nothing of the previous one is kept. *)
Definition set_safe_mode (fs : FS) (_ : SafeModeConfig) (enabled0 : bool)
    (base_directory0 : option string) (allowed_extensions0 : option (list string))
  : SafeModeConfig :=
  SafeModeConfig_init fs enabled0 base_directory0 allowed_extensions0.

(** [validate_path] *)
Definition validate_path (cfg : SafeModeConfig) (fs : FS) (file_path : string)
    (safe_mode : bool) : Exc path :=
  let p := resolve (fs_cwd fs) file_path in
  if safe_mode then
    if is_dir fs p then
      if negb (is_relative_to p (base_directory cfg))
      then Raise (PDFProcessingError (AccessDenied p))
      else Ok p
    else if negb (is_relative_to p (base_directory cfg))
    then Raise (PDFProcessingError (AccessDenied p))
    else if negb (mem_str (lower (suffix p)) (allowed_extensions cfg))
    then Raise (PDFProcessingError (InvalidFileType (suffix p)))
    else Ok p
  else Ok p.

(* ------------------------------------------------------------------ *)
(** ** Single-document extraction *)

Record Flags := {
  f_text : bool; f_table : bool; f_image : bool; f_encode_page : bool;
  f_segment : bool }.

Inductive Input :=
| InBytes (b : bytes)
| InPath (p : string).

(** [_get_page_count]: [len(doc)], and [0] when it raises. *)
Definition _get_page_count (doc : Document) : nat :=
  match doc_len doc with
  | ROk n => n
  | RErr _ => 0
  end.

Definition of_res {A} (r : Res A) : Exc A :=
  match r with ROk a => Ok a | RErr k => Raise (PyError k) end.

(** The body of [for page_num in range(total_pages)] for one page. *)
Definition process_page (fl : Flags) (page : Page) (page_num : nat)
    (extracted_content : DocumentResult) : DocumentResult :=
  let c1 := if f_text fl
            then setdefault_extend "text"
                   [ITxt (_extract_text_from_page page page_num)] extracted_content
            else extracted_content in
  let c2 := if f_table fl
            then setdefault_extend "tables"
                   (map ITab (_extract_tables_from_page page page_num)) c1
            else c1 in
  let c3 := if f_image fl
            then setdefault_extend "images"
                   (map IImg (_extract_images_from_page page page_num)) c2
            else c2 in
  let c4 := if f_encode_page fl
            then setdefault_extend "pages"
                   [IPg (_convert_page_as_image page page_num)] c3
            else c3 in
  if f_segment fl
  then setdefault_extend "segments"
         [ISeg (_extract_segments_from_page page page_num)] c4
  else c4.

(** [for page_num in page_nums: page = doc[page_num]; ...]: loading a
    page may raise, which leaves the loop. *)
Fixpoint page_loop (fl : Flags) (doc : Document) (page_nums : list nat)
    (extracted_content : DocumentResult) : Exc DocumentResult :=
  match page_nums with
  | [] => Ok extracted_content
  | page_num :: rest =>
      page <- of_res (doc_getitem doc page_num) ;;
      page_loop fl doc rest (process_page fl page page_num extracted_content)
  end.

(** The statements of the [try] block after the document is open. *)
Definition extract_document (fl : Flags) (doc : Document) : Exc DocumentResult :=
  let total_pages := _get_page_count doc in
  page_loop fl doc (seq 0 total_pages) [].

(** The loop body run over pages already loaded, numbered from
    [page_num]. *)
Fixpoint process_pages (fl : Flags) (pages : list Page) (page_num : nat)
    (extracted_content : DocumentResult) : DocumentResult :=
  match pages with
  | [] => extracted_content
  | page :: rest =>
      process_pages fl rest (S page_num) (process_page fl page page_num extracted_content)
  end.

(** Loading the pages [doc[i]] for [i] in [page_nums], up to the first
    that raises. *)
Fixpoint load_pages (doc : Document) (page_nums : list nat) : Exc (list Page) :=
  match page_nums with
  | [] => Ok []
  | i :: rest =>
      page <- of_res (doc_getitem doc i) ;;
      pages <- load_pages doc rest ;;
      Ok (page :: pages)
  end.

(** The three [except] clauses of [sync_extract_pdf]. *)
Definition handle_extract_exn (e : Exn) : Exn :=
  match e with
  | PyError k =>
      if is_value_or_runtime k then PDFProcessingError (InvalidOrCorrupted k)
      else match k with
           | FileNotFoundError => PDFProcessingError (FileNotFoundOS k)
           | _ => PDFProcessingError (FailedToExtract e)
           end
  | PDFProcessingError _ => PDFProcessingError (FailedToExtract e)
  end.

(** Opening the input: bytes directly, a path after [validate_path]. *)
Definition open_input (cfg : SafeModeConfig) (fs : FS) (input_data : Input)
    (safe_mode : bool) : Exc Document :=
  match input_data with
  | InBytes b => of_res (fs_open_stream fs b)
  | InPath s =>
      file_path <- validate_path cfg fs s safe_mode ;;
      if negb (is_file fs file_path)
      then Raise (PDFProcessingError (FileNotFound file_path))
      else of_res (fs_open fs file_path)
  end.

(** The undecorated body of [sync_extract_pdf]. *)
Definition sync_extract_pdf_body (cfg : SafeModeConfig) (fs : FS)
    (input_data : Input) (safe_mode : bool) (fl : Flags) : Exc DocumentResult :=
  match (doc <- open_input cfg fs input_data safe_mode ;; extract_document fl doc) with
  | Ok extracted_content => Ok extracted_content
  | Raise e => Raise (handle_extract_exn e)
  end.

(** [with_safe_mode]: the wrapper binds the keyword [safe_mode] itself
    (default [True]), stores it in [SAFE_MODE_CONFIG.enabled], calls
    [func] with the remaining arguments (without [safe_mode]) and restores
    the saved flag in [finally]. [func] is a stateful computation on the
    configuration. *)
Definition with_safe_mode {A : Type}
    (func : SafeModeConfig -> Exc A * SafeModeConfig)
    (safe_mode : bool) (cfg : SafeModeConfig) : Exc A * SafeModeConfig :=
  let original_safe_mode := enabled cfg in
  let (r, cfg') := func (set_enabled cfg safe_mode) in
  (r, set_enabled cfg' original_safe_mode).

(** The decorated [sync_extract_pdf], called as every caller in the
    repository calls it: [sync_extract_pdf(input, safe_mode=..., text=...,
    ...)].  The [safe_mode] keyword is consumed by the wrapper, so the body
    runs with its own default [safe_mode=True]; the body reads the
    configuration and does not write it. *)
Definition sync_extract_pdf (cfg : SafeModeConfig) (fs : FS) (input_data : Input)
    (safe_mode : bool) (fl : Flags) : Exc DocumentResult * SafeModeConfig :=
  with_safe_mode (fun c => (sync_extract_pdf_body c fs input_data true fl, c))
    safe_mode cfg.

(** *** Cooperative single-document extraction *)

(** Scheduler events of a coroutine: [await asyncio.sleep(0)]. *)
Inductive Event := Yield.

(** The page loop of [async_extract_pdf]: [page = doc[page_num]], the
    same five statements as the blocking loop, then a yield to the event
    loop. *)
Fixpoint async_page_loop (fl : Flags) (doc : Document) (page_nums : list nat)
    (extracted_content : DocumentResult) : list Event * Exc DocumentResult :=
  match page_nums with
  | [] => ([], Ok extracted_content)
  | page_num :: rest =>
      match of_res (doc_getitem doc page_num) with
      | Raise e => ([], Raise e)
      | Ok page =>
          let (ev, r) := async_page_loop fl doc rest
                           (process_page fl page page_num extracted_content) in
          (Yield :: ev, r)
      end
  end.

(** [async_extract_pdf] (not decorated): the events it yields and the
    value its awaiter receives. *)
Definition async_extract_pdf (cfg : SafeModeConfig) (fs : FS) (input_data : Input)
    (safe_mode : bool) (fl : Flags) : list Event * Exc DocumentResult :=
  let (ev, r) :=
    match open_input cfg fs input_data safe_mode with
    | Raise e => ([], Raise e)
    | Ok doc =>
        let total_pages := _get_page_count doc in
        async_page_loop fl doc (seq 0 total_pages) []
    end in
  (ev, match r with
       | Ok extracted_content => Ok extracted_content
       | Raise e => Raise (handle_extract_exn e)
       end).

(* ------------------------------------------------------------------ *)
(** ** Directory extraction *)

(** A DirectoryResult: relative path to DocumentResult, insertion order. *)
Definition DirectoryResult := list (string * DocumentResult).

(** [extracted_data[k] = v] *)
Fixpoint dict_set (k : string) (v : DocumentResult) (d : DirectoryResult)
  : DirectoryResult :=
  match d with
  | [] => [(k, v)]
  | (k', v') :: d' =>
      if String.eqb k k' then (k', v) :: d' else (k', v') :: dict_set k v d'
  end.

(** [traverse_directory] *)
Definition traverse_directory (cfg : SafeModeConfig) (fs : FS)
    (directory_path : string) (safe_mode : bool) : Exc (list path) :=
  directory <- validate_path cfg fs directory_path safe_mode ;;
  if negb (is_dir fs directory)
  then Raise (PDFProcessingError (NotADirectory directory))
  else Ok (flat_map (fun f => match validate_path cfg fs (path_str f) safe_mode with
                              | Ok file_path => [file_path]
                              | Raise _ => []
                              end)
                    (fs_walk fs directory)).

(** The [for file_path in traverse_directory(...)] loop of
    [sync_extract_pdfs_from_directory]; every exception of an iteration is
    caught and the file left out. *)
Fixpoint sync_dir_loop (cfg : SafeModeConfig) (fs : FS) (directory_path : string)
    (safe_mode : bool) (fl : Flags) (files : list path)
    (extracted_data : DirectoryResult) : DirectoryResult * SafeModeConfig :=
  match files with
  | [] => (extracted_data, cfg)
  | file_path :: rest =>
      let (r, cfg') := sync_extract_pdf cfg fs (InPath (path_str file_path)) safe_mode fl in
      let extracted_data' :=
        match r with
        | Raise _ => extracted_data
        | Ok extracted_content =>
            match relative_to_str file_path directory_path with
            | ROk rel => dict_set (join_slash rel) extracted_content extracted_data
            | RErr _ => extracted_data
            end
        end in
      sync_dir_loop cfg' fs directory_path safe_mode fl rest extracted_data'
  end.

(** [sync_extract_pdfs_from_directory] *)
Definition sync_extract_pdfs_from_directory (cfg : SafeModeConfig) (fs : FS)
    (directory_path : string) (safe_mode : bool) (fl : Flags)
  : Exc DirectoryResult * SafeModeConfig :=
  match validate_path cfg fs directory_path safe_mode with
  | Raise e => (Raise e, cfg)
  | Ok directory =>
      if negb (is_dir fs directory)
      then (Raise (PDFProcessingError (NotADirectory directory)), cfg)
      else match traverse_directory cfg fs directory_path safe_mode with
           | Raise e => (Raise e, cfg)
           | Ok files =>
               let (d, cfg') := sync_dir_loop cfg fs directory_path safe_mode fl files [] in
               (Ok d, cfg')
           end
  end.

(** The loop of [async_extract_pdfs_from_directory]. *)
Fixpoint async_dir_loop (cfg : SafeModeConfig) (fs : FS) (directory_path : string)
    (safe_mode : bool) (fl : Flags) (files : list path)
    (extracted_data : DirectoryResult) : DirectoryResult :=
  match files with
  | [] => extracted_data
  | file_path :: rest =>
      let extracted_data' :=
        match snd (async_extract_pdf cfg fs (InPath (path_str file_path)) safe_mode fl) with
        | Raise _ => extracted_data
        | Ok extracted_content =>
            match relative_to_str file_path directory_path with
            | ROk rel => dict_set (join_slash rel) extracted_content extracted_data
            | RErr _ => extracted_data
            end
        end in
      async_dir_loop cfg fs directory_path safe_mode fl rest extracted_data'
  end.

(** [async_extract_pdfs_from_directory] (awaited value) *)
Definition async_extract_pdfs_from_directory (cfg : SafeModeConfig) (fs : FS)
    (directory_path : string) (safe_mode : bool) (fl : Flags) : Exc DirectoryResult :=
  directory <- validate_path cfg fs directory_path safe_mode ;;
  if negb (is_dir fs directory)
  then Raise (PDFProcessingError (NotADirectory directory))
  else files <- traverse_directory cfg fs directory_path safe_mode ;;
       Ok (async_dir_loop cfg fs directory_path safe_mode fl files []).

(* ------------------------------------------------------------------ *)
(** ** Entry points dispatching on the input *)

Inductive Extracted :=
| ExDoc (d : DocumentResult)
| ExDir (d : DirectoryResult).

Definition map_exc {A B} (f : A -> B) (r : Exc A) : Exc B :=
  match r with Ok a => Ok (f a) | Raise e => Raise e end.

(** [extract_pdfs_sync] *)
Definition extract_pdfs_sync (cfg : SafeModeConfig) (fs : FS) (input_path : Input)
    (safe_mode : bool) (fl : Flags) : Exc Extracted * SafeModeConfig :=
  match input_path with
  | InBytes _ =>
      let (r, cfg') := sync_extract_pdf cfg fs input_path safe_mode fl in
      (map_exc ExDoc r, cfg')
  | InPath s =>
      match validate_path cfg fs s safe_mode with
      | Raise e => (Raise e, cfg)
      | Ok p =>
          if is_dir fs p then
            let (r, cfg') := sync_extract_pdfs_from_directory cfg fs (path_str p) safe_mode fl in
            (map_exc ExDir r, cfg')
          else if is_file fs p then
            let (r, cfg') := sync_extract_pdf cfg fs (InPath (path_str p)) safe_mode fl in
            (map_exc ExDoc r, cfg')
          else (Raise (PDFProcessingError (InvalidInput p)), cfg)
      end
  end.

(** [extract_pdfs_async] (awaited value) *)
Definition extract_pdfs_async (cfg : SafeModeConfig) (fs : FS) (input_path : Input)
    (safe_mode : bool) (fl : Flags) : Exc Extracted :=
  match input_path with
  | InBytes _ => map_exc ExDoc (snd (async_extract_pdf cfg fs input_path safe_mode fl))
  | InPath s =>
      p <- validate_path cfg fs s safe_mode ;;
      if is_dir fs p
      then map_exc ExDir (async_extract_pdfs_from_directory cfg fs (path_str p) safe_mode fl)
      else if is_file fs p
      then map_exc ExDoc (snd (async_extract_pdf cfg fs (InPath (path_str p)) safe_mode fl))
      else Raise (PDFProcessingError (InvalidInput p))
  end.

(** What [extract_pdfs] hands back: inside a running event loop a task
    ([asyncio.create_task]) whose awaited value is given; otherwise the
    value of the blocking call, raised or returned at the call. *)
Inductive Dispatched :=
| Task (awaited : Exc Extracted)
| Direct (returned : Exc Extracted).

Definition dispatched_value (d : Dispatched) : Exc Extracted :=
  match d with Task r => r | Direct r => r end.

(** [extract_pdfs]; [running_async] is the answer of [_is_running_async()]
    ([asyncio.get_running_loop()] succeeds). *)
Definition extract_pdfs (running_async : bool) (cfg : SafeModeConfig) (fs : FS)
    (input_path : Input) (safe_mode : bool) (fl : Flags) : Dispatched * SafeModeConfig :=
  if running_async
  then (Task (extract_pdfs_async cfg fs input_path safe_mode fl), cfg)
  else let (r, cfg') := extract_pdfs_sync cfg fs input_path safe_mode fl in
       (Direct r, cfg').

(* ------------------------------------------------------------------ *)
(** ** A concrete world for tests *)

Definition all_flags : Flags :=
  {| f_text := true; f_table := true; f_image := true; f_encode_page := true;
     f_segment := true |}.
Definition no_flags : Flags :=
  {| f_text := false; f_table := false; f_image := false; f_encode_page := false;
     f_segment := false |}.

Definition r0 : Rect := (0, 0, 10, 10)%Z.
Definition r1 : Rect := (1, 2, 3, 4)%Z.

(** A page on which every backend call succeeds. *)
Definition good_page : Page := {|
  pg_text := ROk "Sample page text";
  pg_blocks := ROk [{| blk_bbox := r1; blk_text := "x = \frac{1}{2}" |}];
  pg_images := ROk [];
  pg_tables := ROk [];
  pg_drawings := ROk [];
  pg_pixmap := ROk "png" |}.

(** A page whose rasterisation and table detection raise. *)
Definition bad_page : Page := {|
  pg_text := RErr RuntimeError;
  pg_blocks := ROk [{| blk_bbox := r1; blk_text := "\sum_i i" |}];
  pg_images := ROk [];
  pg_tables := RErr RuntimeError;
  pg_drawings := ROk [];
  pg_pixmap := RErr RuntimeError |}.

(** A two-page document: [good_page], then [bad_page]. *)
Definition doc0 : Document :=
  {| doc_len := ROk 2; doc_pages := [ROk good_page; ROk bad_page] |}.

(** A document with no page. *)
Definition doc_empty : Document := {| doc_len := ROk 0; doc_pages := [] |}.

(** A document whose [len()] raises. *)
Definition doc_nolen : Document :=
  {| doc_len := RErr RuntimeError; doc_pages := [ROk good_page] |}.

(** A two-page document whose second page fails to load. *)
Definition doc_badload : Document :=
  {| doc_len := ROk 2; doc_pages := [ROk good_page; RErr RuntimeError] |}.

(** The suffix made of "." and U+03D2 (GREEK UPSILON WITH HOOK SYMBOL),
    whose UTF-8 encoding is the bytes CF 92. *)
Definition upsilon_ext : string :=
  String "." (String (ascii_of_N 207) (String (ascii_of_N 146) EmptyString)).

Definition cfg_upsilon : SafeModeConfig :=
  {| enabled := true; base_directory := ["base"]; allowed_extensions := [upsilon_ext] |}.

(** Working directory and base directory [/base]; [/base/docs] holds
    [a.pdf], [b.pdf] and [c.txt]; [/other/x.pdf] lies outside. *)
Definition base : path := ["base"].
Definition cfg0 : SafeModeConfig :=
  {| enabled := true; base_directory := base; allowed_extensions := [".pdf"] |}.

Definition path_eqb (p q : path) : bool :=
  Nat.eqb (length p) (length q) && forallb (fun '(a, b) => String.eqb a b) (combine p q).

Definition fs0 : FS := {|
  fs_cwd := base;
  fs_kind := fun p =>
    if path_eqb p ["base"] || path_eqb p ["base"; "docs"] || path_eqb p ["other"]
    then KDir
    else if path_eqb p ["base"; "docs"; "a.pdf"] || path_eqb p ["base"; "docs"; "b.pdf"]
            || path_eqb p ["base"; "docs"; "c.txt"] || path_eqb p ["other"; "x.pdf"]
            || path_eqb p ["base"; "X.PDF"]
    then KFile else KMissing;
  fs_walk := fun p =>
    if path_eqb p ["base"; "docs"]
    then [["base"; "docs"; "a.pdf"]; ["base"; "docs"; "b.pdf"]; ["base"; "docs"; "c.txt"]]
    else [];
  fs_open := fun p => ROk doc0;
  fs_open_stream := fun b => if String.eqb b "" then RErr FileDataError
                             else ROk doc0 |}.

(** A filesystem and backend where every input opens as [doc]. *)
Definition fs_doc (doc : Document) : FS := {|
  fs_cwd := base; fs_kind := fun _ => KMissing; fs_walk := fun _ => [];
  fs_open := fun _ => ROk doc; fs_open_stream := fun _ => ROk doc |}.

(* ------------------------------------------------------------------ *)
(** ** Sandbox and decorator *)

(** The decorator restores the flag whatever [func] did to the
    configuration. *)
Lemma with_safe_mode_enabled {A : Type} func safe_mode cfg :
  enabled (snd (@with_safe_mode A func safe_mode cfg)) = enabled cfg.
Proof.
  unfold with_safe_mode. destruct (func (set_enabled cfg safe_mode)). reflexivity.
Qed.

(** The body of the decorated [sync_extract_pdf] always validates with
    [safe_mode=True]: the keyword passed by the caller changes nothing in
    the result. *)
Lemma sync_extract_pdf_safe_mode_irrelevant cfg fs input_data sm fl :
  fst (sync_extract_pdf cfg fs input_data sm fl)
  = sync_extract_pdf_body cfg fs input_data true fl.
Proof. reflexivity. Qed.

(** [validate_path] never reads [SAFE_MODE_CONFIG.enabled]. *)
Lemma validate_path_ignores_enabled cfg fs s sm b :
  validate_path (set_enabled cfg b) fs s sm = validate_path cfg fs s sm.
Proof. reflexivity. Qed.

(** C1 (code_bug): a path outside the base directory, called with
    [safe_mode=False], is still refused by [sync_extract_pdf]: the wrapper
    consumes the keyword and the body validates with [safe_mode=True]. *)
Theorem sync_extract_pdf_outside_base_refused :
  validate_path cfg0 fs0 "/other/x.pdf" false = Ok ["other"; "x.pdf"] /\
  is_file fs0 ["other"; "x.pdf"] = true /\
  fst (sync_extract_pdf cfg0 fs0 (InPath "/other/x.pdf") false all_flags)
  = Raise (PDFProcessingError
             (FailedToExtract (PDFProcessingError (AccessDenied ["other"; "x.pdf"])))).
Proof. repeat split; reflexivity. Qed.

(** C3 (code_bug): on the same input and flags the blocking call raises
    while the cooperative call returns a DocumentResult. *)
Theorem sync_async_differ_outside_base :
  fst (sync_extract_pdf cfg0 fs0 (InPath "/other/x.pdf") false all_flags)
  = Raise (PDFProcessingError
             (FailedToExtract (PDFProcessingError (AccessDenied ["other"; "x.pdf"])))) /\
  snd (async_extract_pdf cfg0 fs0 (InPath "/other/x.pdf") false all_flags)
  = Ok (process_pages all_flags [good_page; bad_page] 0 []).
Proof. split; reflexivity. Qed.

(** C10: the decorated [sync_extract_pdf] leaves the whole process-wide
    configuration as it found it, whether it returns or raises: the flag
    is restored by [finally], the base directory and the allowed
    extensions are never written. *)
Theorem sync_extract_pdf_config_frame cfg fs input_data safe_mode fl :
  enabled (snd (sync_extract_pdf cfg fs input_data safe_mode fl)) = enabled cfg /\
  base_directory (snd (sync_extract_pdf cfg fs input_data safe_mode fl))
    = base_directory cfg /\
  allowed_extensions (snd (sync_extract_pdf cfg fs input_data safe_mode fl))
    = allowed_extensions cfg.
Proof.
  split; [apply with_safe_mode_enabled | split; reflexivity].
Qed.

Lemma mem_str_In x l : mem_str x l = true <-> In x l.
Proof.
  induction l as [|y l IH]; simpl.
  - split; [discriminate | contradiction].
  - rewrite Bool.orb_true_iff, IH, String.eqb_eq. intuition congruence.
Qed.

Lemma lower_runs_ok :
  forallb (fun '(s, n, k, t) => ((t + k * n <=? 65) || (90 <? t))%N) lower_runs = true.
Proof. vm_compute. reflexivity. Qed.

Lemma lower_runs_head : lower_runs = (0x41, 26, 1, 0x61)%N :: tl lower_runs.
Proof. reflexivity. Qed.

Lemma to_lower_full_no_ascii_upper c :
  forallb (fun d => negb (ascii_upper_cp d)) (to_lower_full c) = true.
Proof.
  unfold to_lower_full.
  destruct (c =? 0x130)%N; [reflexivity|].
  destruct (find _ lower_runs) as [[[[s n] k] t]|] eqn:Hf.
  - apply find_some in Hf as [Hin Hrun].
    pose proof (proj1 (forallb_forall _ _) lower_runs_ok _ Hin) as Hok.
    cbn beta iota in Hok, Hrun. unfold in_run in Hrun.
    apply andb_true_iff in Hrun as [Hrun Hlt]. apply andb_true_iff in Hrun as [Hle _].
    apply N.leb_le in Hle. apply N.ltb_lt in Hlt.
    cbn [forallb]. rewrite andb_true_r. unfold ascii_upper_cp.
    apply orb_true_iff in Hok as [Hok|Hok]; [apply N.leb_le in Hok | apply N.ltb_lt in Hok].
    + destruct (N.leb_spec 65 (t + (c - s))); [lia | reflexivity].
    + destruct (N.leb_spec (t + (c - s)) 90); [lia|].
      rewrite andb_false_r. reflexivity.
  - cbn [forallb]. rewrite andb_true_r. unfold ascii_upper_cp.
    destruct (N.leb_spec 65 c); [|reflexivity].
    destruct (N.leb_spec c 90); [|rewrite andb_false_r; reflexivity].
    exfalso. rewrite lower_runs_head in Hf. cbn [find] in Hf.
    assert (Hr : in_run c 0x41 26 1 = true).
    { unfold in_run. rewrite N.mod_1_r.
      apply andb_true_iff; split; [apply andb_true_iff; split|].
      - apply N.leb_le. lia.
      - reflexivity.
      - apply N.ltb_lt. lia. }
    rewrite Hr in Hf. discriminate.
Qed.

Lemma handle_capital_sigma_val before after :
  handle_capital_sigma before after = 0x3C2%N \/
  handle_capital_sigma before after = 0x3C3%N.
Proof.
  unfold handle_capital_sigma. cbv zeta.
  match goal with |- context [if ?b then 0x3C2%N else 0x3C3%N] => destruct b end; auto.
Qed.

Lemma lower_cps_no_ascii_upper before cs :
  forallb (fun d => negb (ascii_upper_cp d)) (lower_cps before cs) = true.
Proof.
  revert before. induction cs as [|c cs IH]; intros before; [reflexivity|].
  cbn [lower_cps]. rewrite forallb_app, IH, andb_true_r.
  destruct (c =? 0x3A3)%N.
  - destruct (handle_capital_sigma_val before cs) as [-> | ->]; reflexivity.
  - apply to_lower_full_no_ascii_upper.
Qed.

Lemma has_ascii_upper_app a b :
  has_ascii_upper (String.append a b) = has_ascii_upper a || has_ascii_upper b.
Proof.
  induction a as [|c a IH]; cbn [String.append has_ascii_upper]; [reflexivity|].
  rewrite IH, orb_assoc. reflexivity.
Qed.

Lemma byte_not_ascii_upper x :
  (0x80 <= x < 256)%N -> is_ascii_upper (ascii_of_N x) = false.
Proof.
  intros H. unfold is_ascii_upper, ascii_upper_cp. rewrite N_ascii_embedding by lia.
  destruct (N.leb_spec 65 x); [|reflexivity].
  destruct (N.leb_spec x 90); [lia | reflexivity].
Qed.

(** [lia] treats divisions and remainders as opaque once they are named. *)
Ltac gen_divmod :=
  repeat match goal with
         | |- context [(?a mod ?b)%N] => generalize dependent (a mod b)%N; intros
         | |- context [(?a / ?b)%N] => generalize dependent (a / b)%N; intros
         end.

Lemma cont_byte_not_ascii_upper n : is_ascii_upper (cont_byte n) = false.
Proof.
  unfold cont_byte. apply byte_not_ascii_upper.
  pose proof (N.mod_lt n 64 ltac:(discriminate)). gen_divmod. lia.
Qed.

(** A code point is encoded with an ASCII capital exactly when it is one. *)
Lemma utf8_encode_cp_ascii_upper c :
  has_ascii_upper (utf8_encode_cp c) = ascii_upper_cp c.
Proof.
  unfold utf8_encode_cp.
  destruct (N.ltb_spec c 0x80).
  - cbn [has_ascii_upper]. rewrite orb_false_r. unfold is_ascii_upper.
    rewrite N_ascii_embedding by lia. reflexivity.
  - assert (Hc : ascii_upper_cp c = false).
    { unfold ascii_upper_cp. destruct (N.leb_spec 65 c); [|reflexivity].
      destruct (N.leb_spec c 90); [lia | reflexivity]. }
    rewrite Hc.
    destruct ((0xDC80 <=? c) && (c <=? 0xDCFF))%N eqn:Hs.
    + apply andb_true_iff in Hs as [H1 H2]. apply N.leb_le in H1, H2.
      cbn [has_ascii_upper]. rewrite byte_not_ascii_upper by lia. reflexivity.
    + destruct (N.ltb_spec c 0x800).
      * pose proof (N.Div0.div_lt_upper_bound c 64 32 ltac:(lia)).
        cbn [has_ascii_upper].
        rewrite byte_not_ascii_upper, cont_byte_not_ascii_upper by (gen_divmod; lia).
        reflexivity.
      * destruct (N.ltb_spec c 0x10000).
        -- pose proof (N.Div0.div_lt_upper_bound c 4096 16 ltac:(lia)).
           cbn [has_ascii_upper].
           rewrite byte_not_ascii_upper, !cont_byte_not_ascii_upper by (gen_divmod; lia).
           reflexivity.
        -- pose proof (N.mod_lt (c / 262144) 8 ltac:(discriminate)).
           cbn [has_ascii_upper].
           rewrite byte_not_ascii_upper, !cont_byte_not_ascii_upper by (gen_divmod; lia).
           reflexivity.
Qed.

Lemma has_ascii_upper_encode cs :
  has_ascii_upper (utf8_encode cs) = existsb ascii_upper_cp cs.
Proof.
  induction cs as [|c cs IH]; cbn [utf8_encode existsb]; [reflexivity|].
  rewrite has_ascii_upper_app, utf8_encode_cp_ascii_upper, IH. reflexivity.
Qed.

Lemma forallb_negb_existsb {A} (f : A -> bool) l :
  forallb (fun x => negb (f x)) l = true -> existsb f l = false.
Proof.
  induction l as [|x l IH]; cbn [forallb existsb]; [reflexivity|].
  intros H. apply andb_true_iff in H as [Hx Hl].
  destruct (f x); [discriminate|]. apply IH, Hl.
Qed.

(** [str.lower()] leaves none of the ASCII capitals A..Z. *)
Lemma has_ascii_upper_lower s : has_ascii_upper (lower s) = false.
Proof.
  unfold lower. rewrite has_ascii_upper_encode.
  apply forallb_negb_existsb, lower_cps_no_ascii_upper.
Qed.

(** C9 (counterexample): the entry ["." + U+03D2] (GREEK UPSILON WITH
    HOOK SYMBOL, a letter of category Lu) is upper case for Python
    ([".\u03d2".isupper()] is [True]), and [str.lower()] leaves it as it
    is: with that entry allowed, the file ["x." + U+03D2] in the base
    directory passes validation. *)
Lemma validate_path_uppercase_entry_matches :
  isupper upsilon_ext = true /\
  lower upsilon_ext = upsilon_ext /\
  validate_path cfg_upsilon fs0 (String "x" upsilon_ext) true
  = Ok ["base"; String "x" upsilon_ext].
Proof.
  split; [vm_compute; reflexivity|].
  split; vm_compute; reflexivity.
Qed.

(** C9 (amended): for a file inside the base directory, safe-mode
    validation succeeds exactly when the suffix lower-cased by Python's
    [str.lower()] is in the allowed set; so a suffix matching an allowed
    entry up to letter case passes when that entry is in lower case, and
    an allowed entry holding one of the ASCII capitals A..Z never
    matches. *)
Theorem validate_path_suffix_lowercase cfg fs s :
  is_dir fs (resolve (fs_cwd fs) s) = false ->
  is_relative_to (resolve (fs_cwd fs) s) (base_directory cfg) = true ->
  (validate_path cfg fs s true = Ok (resolve (fs_cwd fs) s)
     <-> In (lower (suffix (resolve (fs_cwd fs) s))) (allowed_extensions cfg)) /\
  (forall a, In a (allowed_extensions cfg) ->
             lower (suffix (resolve (fs_cwd fs) s)) = lower a -> lower a = a ->
             validate_path cfg fs s true = Ok (resolve (fs_cwd fs) s)) /\
  (forall e, has_ascii_upper e = true -> lower (suffix (resolve (fs_cwd fs) s)) <> e).
Proof.
  intros Hdir Hrel.
  assert (Hiff : validate_path cfg fs s true = Ok (resolve (fs_cwd fs) s)
                 <-> In (lower (suffix (resolve (fs_cwd fs) s))) (allowed_extensions cfg)).
  { unfold validate_path. rewrite Hdir, Hrel. simpl.
    rewrite <- mem_str_In.
    destruct (mem_str _ _); simpl; split; congruence. }
  split; [exact Hiff | split].
  - intros a Ha Hs Hlow. apply Hiff. rewrite Hs, Hlow. exact Ha.
  - intros e He Heq. rewrite <- Heq, has_ascii_upper_lower in He. discriminate.
Qed.

(** The C9 theorem at [/base/X.PDF] with [".pdf"] allowed. *)
Lemma validate_path_suffix_lowercase_witness :
  is_dir fs0 (resolve (fs_cwd fs0) "X.PDF") = false /\
  is_relative_to (resolve (fs_cwd fs0) "X.PDF") (base_directory cfg0) = true /\
  ((validate_path cfg0 fs0 "X.PDF" true = Ok ["base"; "X.PDF"]
      <-> In ".pdf" [".pdf"]) /\
   (forall a, In a [".pdf"] -> ".pdf" = lower a -> lower a = a ->
              validate_path cfg0 fs0 "X.PDF" true = Ok ["base"; "X.PDF"]) /\
   (forall e, has_ascii_upper e = true -> ".pdf" <> e)).
Proof.
  split; [reflexivity | split; [reflexivity |]].
  apply (validate_path_suffix_lowercase cfg0 fs0 "X.PDF"); reflexivity.
Defined.

(* ------------------------------------------------------------------ *)
(** ** The page loop: keys and per-key contents *)

Inductive Key := KText | KTables | KImages | KPages | KSegments.

Definition key_name (k : Key) : string :=
  match k with
  | KText => "text" | KTables => "tables" | KImages => "images"
  | KPages => "pages" | KSegments => "segments"
  end.

Definition key_flag (fl : Flags) (k : Key) : bool :=
  match k with
  | KText => f_text fl | KTables => f_table fl | KImages => f_image fl
  | KPages => f_encode_page fl | KSegments => f_segment fl
  end.

(** What the guarded statement of key [k] adds for one page. *)
Definition key_output (k : Key) (page : Page) (page_num : nat) : list Item :=
  match k with
  | KText => [ITxt (_extract_text_from_page page page_num)]
  | KTables => map ITab (_extract_tables_from_page page page_num)
  | KImages => map IImg (_extract_images_from_page page page_num)
  | KPages => [IPg (_convert_page_as_image page page_num)]
  | KSegments => [ISeg (_extract_segments_from_page page page_num)]
  end.

(** The outputs of one extractor over the pages, each computed from its
    own page alone. *)
Fixpoint loop_output (k : Key) (pages : list Page) (page_num : nat) : list Item :=
  match pages with
  | [] => []
  | page :: rest => key_output k page page_num ++ loop_output k rest (S page_num)
  end.

Definition all_keys : list Key := [KText; KTables; KImages; KPages; KSegments].

(** The keys of the enabled flags, in the order of the loop body. *)
Definition enabled_keys (fl : Flags) : list string :=
  map key_name (filter (key_flag fl) all_keys).

Definition default_nil (o : option (list Item)) : list Item :=
  match o with Some v => v | None => [] end.

Lemma lookup_setdefault k k' xs d :
  lookup k (setdefault_extend k' xs d)
  = if String.eqb k k' then Some (default_nil (lookup k d) ++ xs) else lookup k d.
Proof.
  induction d as [|[k0 v] d IH]; simpl.
  - reflexivity.
  - destruct (String.eqb_spec k' k0) as [->|Hne]; simpl.
    + destruct (String.eqb k k0); reflexivity.
    + rewrite IH. destruct (String.eqb_spec k k0) as [->|Hk0].
      * destruct (String.eqb_spec k0 k'); [congruence | reflexivity].
      * reflexivity.
Qed.

Lemma keys_setdefault k xs d :
  keys (setdefault_extend k xs d)
  = if mem_str k (keys d) then keys d else keys d ++ [k].
Proof.
  induction d as [|[k0 v] d IH]; simpl; [reflexivity|].
  destruct (String.eqb_spec k k0) as [->|Hne]; simpl; [reflexivity|].
  rewrite IH. destruct (mem_str k (keys d)); reflexivity.
Qed.

Lemma lookup_process_page k fl page n acc :
  lookup (key_name k) (process_page fl page n acc)
  = if key_flag fl k
    then Some (default_nil (lookup (key_name k) acc) ++ key_output k page n)
    else lookup (key_name k) acc.
Proof.
  unfold process_page.
  destruct fl as [[] [] [] [] []]; cbn [f_text f_table f_image f_encode_page f_segment];
    repeat rewrite lookup_setdefault;
    destruct k; cbn [key_flag key_name key_output f_text f_table f_image
                     f_encode_page f_segment String.eqb Ascii.eqb Bool.eqb];
    reflexivity.
Qed.

Lemma lookup_process_pages k fl pages n acc :
  lookup (key_name k) (process_pages fl pages n acc)
  = if key_flag fl k
    then match pages with
         | [] => lookup (key_name k) acc
         | _ :: _ => Some (default_nil (lookup (key_name k) acc) ++ loop_output k pages n)
         end
    else lookup (key_name k) acc.
Proof.
  revert n acc. induction pages as [|page rest IH]; intros n acc; simpl.
  - destruct (key_flag fl k); reflexivity.
  - rewrite IH, lookup_process_page.
    destruct (key_flag fl k) eqn:Hk; [|reflexivity].
    destruct rest as [|p rest']; simpl.
    + rewrite !app_nil_r. reflexivity.
    + rewrite !app_assoc. reflexivity.
Qed.

Lemma keys_process_page_enabled fl page n acc :
  keys acc = enabled_keys fl -> keys (process_page fl page n acc) = enabled_keys fl.
Proof.
  intros H. unfold process_page.
  destruct fl as [[] [] [] [] []]; cbn [f_text f_table f_image f_encode_page f_segment];
    repeat rewrite keys_setdefault; rewrite H; reflexivity.
Qed.

Lemma keys_process_page_empty fl page n :
  keys (process_page fl page n []) = enabled_keys fl.
Proof. destruct fl as [[] [] [] [] []]; reflexivity. Qed.

Lemma keys_process_pages_enabled fl pages n acc :
  keys acc = enabled_keys fl -> keys (process_pages fl pages n acc) = enabled_keys fl.
Proof.
  revert n acc. induction pages as [|page rest IH]; intros n acc H; simpl; [exact H|].
  apply IH, keys_process_page_enabled, H.
Qed.

Lemma keys_process_pages fl pages :
  keys (process_pages fl pages 0 [])
  = match pages with [] => [] | _ :: _ => enabled_keys fl end.
Proof.
  destruct pages as [|page rest]; [reflexivity|].
  simpl. apply keys_process_pages_enabled, keys_process_page_empty.
Qed.

(** The interleaved loop computes what loading every page first, then
    running the loop body over them, computes. *)
Lemma page_loop_load fl doc m n acc :
  page_loop fl doc (seq n m) acc
  = (pages <- load_pages doc (seq n m) ;; Ok (process_pages fl pages n acc)).
Proof.
  revert n acc. induction m as [|m IH]; intros n acc; [reflexivity|].
  cbn [seq page_loop load_pages].
  destruct (doc_getitem doc n) as [page|k]; [|reflexivity].
  cbn [of_res bind]. rewrite IH.
  destruct (load_pages doc (seq (S n) m)); reflexivity.
Qed.

Lemma load_pages_ok doc nums pages :
  load_pages doc nums = Ok pages ->
  Forall2 (fun i page => doc_getitem doc i = ROk page) nums pages.
Proof.
  revert pages. induction nums as [|i nums IH]; intros pages H.
  - injection H as <-. constructor.
  - cbn [load_pages] in H. destruct (doc_getitem doc i) as [page|k] eqn:Hi;
      [|discriminate].
    cbn [of_res bind] in H. destruct (load_pages doc nums) as [ps|e]; [|discriminate].
    injection H as <-. constructor; [exact Hi | apply IH; reflexivity].
Qed.

Lemma load_pages_complete doc nums pages :
  Forall2 (fun i page => doc_getitem doc i = ROk page) nums pages ->
  load_pages doc nums = Ok pages.
Proof.
  induction 1 as [|i page nums pages Hi _ IH]; [reflexivity|].
  cbn [load_pages]. rewrite Hi. cbn [of_res bind]. rewrite IH. reflexivity.
Qed.

Lemma load_pages_raise doc nums e :
  load_pages doc nums = Raise e ->
  exists i k, In i nums /\ doc_getitem doc i = RErr k /\ e = PyError k.
Proof.
  induction nums as [|i nums IH]; intros H; [discriminate|].
  cbn [load_pages] in H. destruct (doc_getitem doc i) as [page|k] eqn:Hi.
  - cbn [of_res bind] in H. destruct (load_pages doc nums) as [ps|e'] eqn:Hl;
      [discriminate|].
    injection H as <-. destruct (IH eq_refl) as [j [k [Hj Hk]]].
    exists j, k. split; [right; exact Hj | exact Hk].
  - injection H as <-. exists i, k. split; [left; reflexivity | split; [exact Hi | reflexivity]].
Qed.


Lemma Forall2_nth_error {A B} (R : A -> B -> Prop) l1 l2 i a b :
  Forall2 R l1 l2 -> nth_error l1 i = Some a -> nth_error l2 i = Some b -> R a b.
Proof.
  intros H. revert i. induction H as [|x y l1 l2 Hxy _ IH]; intros i H1 H2.
  - destruct i; discriminate.
  - destruct i as [|i]; cbn [nth_error] in H1, H2.
    + injection H1 as <-. injection H2 as <-. exact Hxy.
    + exact (IH i H1 H2).
Qed.

Lemma nth_error_seq_lt start len i :
  i < len -> nth_error (seq start len) i = Some (start + i).
Proof.
  revert start i. induction len as [|len IH]; intros start i Hi; [lia|].
  destruct i as [|i]; cbn [seq nth_error].
  - rewrite Nat.add_0_r. reflexivity.
  - rewrite IH by lia. f_equal. lia.
Qed.

(** The pages loaded by the page loop of a document. *)
Definition loaded (doc : Document) (pages : list Page) : Prop :=
  Forall2 (fun i page => doc_getitem doc i = ROk page)
    (seq 0 (_get_page_count doc)) pages.

Lemma loaded_length doc pages : loaded doc pages -> length pages = _get_page_count doc.
Proof.
  intros H. apply Forall2_length in H. rewrite <- H. apply length_seq.
Qed.

Lemma loaded_nth doc pages i page :
  loaded doc pages -> nth_error pages i = Some page -> doc_getitem doc i = ROk page.
Proof.
  intros H Hp.
  assert (Hi : i < _get_page_count doc).
  { rewrite <- (loaded_length doc pages H). apply nth_error_Some. congruence. }
  exact (Forall2_nth_error _ _ _ i i page H (nth_error_seq_lt 0 _ i Hi) Hp).
Qed.

Lemma extract_document_load fl doc :
  extract_document fl doc
  = (pages <- load_pages doc (seq 0 (_get_page_count doc)) ;;
     Ok (process_pages fl pages 0 [])).
Proof. apply page_loop_load. Qed.

Lemma extract_document_ok fl doc r :
  extract_document fl doc = Ok r ->
  exists pages, loaded doc pages /\ r = process_pages fl pages 0 [].
Proof.
  rewrite extract_document_load.
  destruct (load_pages doc _) as [pages|e] eqn:Hl; [|discriminate].
  intros H. injection H as <-. exists pages. split; [|reflexivity].
  apply load_pages_ok, Hl.
Qed.

Lemma extract_document_loaded fl doc pages :
  loaded doc pages -> extract_document fl doc = Ok (process_pages fl pages 0 []).
Proof.
  intros H. rewrite extract_document_load, (load_pages_complete _ _ _ H). reflexivity.
Qed.

Lemma extract_document_raise fl doc e :
  extract_document fl doc = Raise e ->
  exists i k, i < _get_page_count doc /\ doc_getitem doc i = RErr k /\ e = PyError k.
Proof.
  rewrite extract_document_load.
  destruct (load_pages doc _) as [pages|e'] eqn:Hl; [discriminate|].
  intros H. injection H as <-. destruct (load_pages_raise _ _ _ Hl) as [i [k [Hi Hk]]].
  apply in_seq in Hi. exists i, k. split; [lia | exact Hk].
Qed.


Lemma lookup_extract_document k fl pages :
  lookup (key_name k) (process_pages fl pages 0 [])
  = match pages with
    | _ :: _ => if key_flag fl k then Some (loop_output k pages 0) else None
    | [] => None
    end.
Proof.
  rewrite lookup_process_pages.
  destruct pages; destruct (key_flag fl k); reflexivity.
Qed.

(** [sync_extract_pdf] runs its [try] block with the body's
    [safe_mode=True] and maps what it raises through the three [except]
    clauses. *)
Lemma sync_extract_pdf_spec cfg fs input_data sm fl :
  fst (sync_extract_pdf cfg fs input_data sm fl)
  = match open_input cfg fs input_data true with
    | Raise e => Raise (handle_extract_exn e)
    | Ok doc =>
        match extract_document fl doc with
        | Ok r => Ok r
        | Raise e => Raise (handle_extract_exn e)
        end
    end.
Proof.
  cbn [sync_extract_pdf with_safe_mode fst]. unfold sync_extract_pdf_body.
  destruct (open_input _ fs input_data true); reflexivity.
Qed.


(** *** C2 *)

(** C2 (code_bug): with every flag enabled, single-document extraction
    returns an empty DocumentResult for a document with no page, and for a
    document whose [len()] raises ([_get_page_count] then returns [0]): the
    keys are created inside the page loop, so no enabled flag gets its
    key. *)
Theorem sync_extract_pdf_zero_pages_missing_keys :
  fst (sync_extract_pdf cfg0 (fs_doc doc_empty) (InBytes "%PDF-1.4") true all_flags)
    = Ok [] /\
  fst (sync_extract_pdf cfg0 (fs_doc doc_nolen) (InBytes "%PDF-1.4") true all_flags)
    = Ok [] /\
  enabled_keys all_flags = ["text"; "tables"; "images"; "pages"; "segments"].
Proof. repeat split; reflexivity. Qed.

(** When single-document extraction returns, its keys are exactly the keys
    of the enabled flags if the page count is positive, and there are none
    if it is [0]. *)
Theorem sync_extract_pdf_keys cfg fs input_data sm fl r :
  fst (sync_extract_pdf cfg fs input_data sm fl) = Ok r ->
  exists doc, open_input cfg fs input_data true = Ok doc /\
    keys r = if Nat.eqb (_get_page_count doc) 0 then [] else enabled_keys fl.
Proof.
  rewrite sync_extract_pdf_spec. intros H.
  destruct (open_input cfg fs input_data true) as [doc|e]; [|discriminate].
  destruct (extract_document fl doc) as [r'|e] eqn:He; [|discriminate].
  injection H as <-. exists doc. split; [reflexivity|].
  destruct (extract_document_ok _ _ _ He) as [pages [Hl ->]].
  rewrite keys_process_pages, <- (loaded_length _ _ Hl).
  destruct pages; reflexivity.
Qed.

(** The theorem on the two-page document given as bytes, every flag set. *)
Lemma sync_extract_pdf_keys_witness :
  fst (sync_extract_pdf cfg0 fs0 (InBytes "%PDF-1.4") true all_flags)
    = Ok (process_pages all_flags [good_page; bad_page] 0 []) /\
  exists doc, open_input cfg0 fs0 (InBytes "%PDF-1.4") true = Ok doc /\
    keys (process_pages all_flags [good_page; bad_page] 0 [])
    = if Nat.eqb (_get_page_count doc) 0 then [] else enabled_keys all_flags.
Proof.
  split; [reflexivity|].
  apply (sync_extract_pdf_keys cfg0 fs0 (InBytes "%PDF-1.4") true all_flags). reflexivity.
Defined.

(** *** C4 *)

(** The records of [_convert_page_as_image] over the pages. *)
Fixpoint convert_loop (pages : list Page) (page_num : nat) : list PageImageRecord :=
  match pages with
  | [] => []
  | page :: rest => _convert_page_as_image page page_num :: convert_loop rest (S page_num)
  end.

Lemma loop_output_pages pages n :
  loop_output KPages pages n = map IPg (convert_loop pages n).
Proof.
  revert n. induction pages as [|p ps IH]; intros n; simpl; [reflexivity|].
  rewrite IH. reflexivity.
Qed.

Lemma convert_loop_numbers pages n :
  map pi_page_number (convert_loop pages n) = seq (S n) (length pages).
Proof.
  revert n. induction pages as [|p ps IH]; intros n; simpl; [reflexivity|].
  rewrite IH. f_equal. unfold _convert_page_as_image.
  destruct (pg_pixmap p); simpl; lia.
Qed.

Lemma convert_loop_nth pages n i :
  nth_error (convert_loop pages n) i
  = match nth_error pages i with
    | Some page => Some (_convert_page_as_image page (n + i))
    | None => None
    end.
Proof.
  revert n i. induction pages as [|p ps IH]; intros n i; simpl.
  - destruct i; reflexivity.
  - destruct i as [|i]; simpl.
    + rewrite Nat.add_0_r. reflexivity.
    + rewrite IH. replace (n + S i) with (S n + i) by lia. reflexivity.
Qed.

(** C4: with [encode_page] enabled, when the page loop returns, the
    ["pages"] list has one record per page of the pipeline's page count N,
    numbered 1..N in order; a page whose rasterisation raises has
    [image=None] and an error string, the others carry their PNG.  (For
    N = 0 the key is absent and the list read as empty.) *)
Theorem extract_document_pages fl doc r :
  f_encode_page fl = true -> extract_document fl doc = Ok r ->
  exists recs,
    default_nil (lookup "pages" r) = map IPg recs /\
    length recs = _get_page_count doc /\
    map pi_page_number recs = seq 1 (_get_page_count doc) /\
    (forall i page rec, doc_getitem doc i = ROk page -> nth_error recs i = Some rec ->
       match pg_pixmap page with
       | RErr _ => pi_image rec = None /\ exists msg, pi_error rec = Some msg
       | ROk png => pi_image rec = Some (B64 png) /\ pi_error rec = None
       end).
Proof.
  intros Henc Hr. destruct (extract_document_ok _ _ _ Hr) as [pages [Hl ->]].
  exists (convert_loop pages 0).
  split; [|split; [|split]].
  - change "pages" with (key_name KPages). rewrite lookup_extract_document.
    destruct pages as [|p ps]; [reflexivity|].
    cbn [key_flag]. rewrite Henc. cbn [default_nil]. apply loop_output_pages.
  - rewrite <- (length_map pi_page_number), convert_loop_numbers, length_seq.
    apply loaded_length, Hl.
  - rewrite convert_loop_numbers, (loaded_length _ _ Hl). reflexivity.
  - intros i page rec Hp Hr'. rewrite convert_loop_nth in Hr'.
    destruct (nth_error pages i) as [p|] eqn:Hpi; [|discriminate].
    rewrite (loaded_nth _ _ _ _ Hl Hpi) in Hp. injection Hp as ->.
    injection Hr' as <-. unfold _convert_page_as_image.
    destruct (pg_pixmap page); simpl; [split; reflexivity|].
    split; [reflexivity | eexists; reflexivity].
Qed.

(** The C4 theorem on the two-page document whose second page does not
    rasterise. *)
Lemma extract_document_pages_witness :
  f_encode_page all_flags = true /\
  extract_document all_flags doc0 = Ok (process_pages all_flags [good_page; bad_page] 0 []) /\
  exists recs,
    default_nil (lookup "pages" (process_pages all_flags [good_page; bad_page] 0 []))
      = map IPg recs /\
    length recs = 2 /\
    map pi_page_number recs = [1; 2] /\
    (forall i page rec, doc_getitem doc0 i = ROk page ->
       nth_error recs i = Some rec ->
       match pg_pixmap page with
       | RErr _ => pi_image rec = None /\ exists msg, pi_error rec = Some msg
       | ROk png => pi_image rec = Some (B64 png) /\ pi_error rec = None
       end).
Proof.
  split; [reflexivity | split; [reflexivity|]].
  exact (extract_document_pages all_flags doc0 _ eq_refl eq_refl).
Defined.

(** *** C6 *)




(* ------------------------------------------------------------------ *)
(** ** The segment classifier *)

Definition has_latex_marker (b : Block) : bool :=
  existsb (fun pattern => contains pattern (blk_text b)) latex_patterns.

(** C5 (counterexample): on [bad_page] the block ["\sum_i i"] contains a
    marker, but [find_tables()] raises, which leaves the shared [try]
    before the LaTeX stage: the page has a [text] segment for the block and
    no [latex] segment. *)
Lemma segments_latex_lost_on_table_failure :
  pg_blocks bad_page = ROk [{| blk_bbox := r1; blk_text := "\sum_i i" |}] /\
  has_latex_marker {| blk_bbox := r1; blk_text := "\sum_i i" |} = true /\
  ~ (exists s, In s (sp_segments (_extract_segments_from_page bad_page 1))
               /\ seg_type s = SLatex).
Proof.
  split; [reflexivity | split; [reflexivity|]].
  intros [s [Hin Ht]]. simpl in Hin.
  destruct Hin as [<- | []]. discriminate.
Qed.

Lemma image_segment_type img s : In s (image_segment img) -> seg_type s = SImage.
Proof.
  unfold image_segment, image_segment_body.
  destruct (img_extract img) as [b|k].
  - destruct (String.eqb b ""); [simpl; tauto|].
    destruct (img_decode img) as [u|k].
    + destruct (img_bbox_item img) as [r|k].
      * destruct (img_ocr img) as [o|k].
        -- intros [<- | []]. reflexivity.
        -- destruct k; try (simpl; tauto);
             destruct (img_bbox_xref img); simpl; intros H;
             try contradiction; destruct H as [<- | []]; reflexivity.
      * destruct k; try (simpl; tauto);
          destruct (img_bbox_xref img); simpl; intros H;
          try contradiction; destruct H as [<- | []]; reflexivity.
    + destruct k; try (simpl; tauto);
        destruct (img_bbox_xref img); simpl; intros H;
        try contradiction; destruct H as [<- | []]; reflexivity.
  - destruct k; try (simpl; tauto);
      destruct (img_bbox_xref img); simpl; intros H;
      try contradiction; destruct H as [<- | []]; reflexivity.
Qed.

Lemma text_segments_not_latex blocks s :
  In s (map text_segment blocks) -> seg_type s <> SLatex.
Proof. intros Hs. apply in_map_iff in Hs as [b [<- _]]. discriminate. Qed.

Lemma table_segments_not_latex tables s :
  In s (map table_segment tables) -> seg_type s <> SLatex.
Proof. intros Hs. apply in_map_iff in Hs as [t [<- _]]. discriminate. Qed.

Lemma chart_segments_not_latex drawings s :
  In s (flat_map chart_segment drawings) -> seg_type s <> SLatex.
Proof.
  intros Hs. apply in_flat_map in Hs as [d [_ Hs]].
  unfold chart_segment in Hs. destruct (Nat.ltb 10 (drw_items d)); simpl in Hs;
    [destruct Hs as [<- | []]; discriminate | contradiction].
Qed.

Ltac split_in :=
  repeat match goal with
         | H : In _ (_ ++ _) |- _ => apply in_app_or in H; destruct H as [H|H]
         end.

(** C5 (amended): on a page whose page-level calls do not raise (the
    block listing, [get_images], [find_tables], [get_drawings]), every
    text block containing a marker yields a [text] segment and a [latex]
    segment, both with the block's bbox and text; when one of these calls
    raises, the shared [try] is left before the LaTeX stage and the page
    has no [latex] segment at all. *)
Theorem segments_latex_block_twice page page_num :
  match pg_blocks page, pg_images page, pg_tables page, pg_drawings page with
  | ROk blocks, ROk _, ROk _, ROk _ =>
      forall b, In b blocks -> has_latex_marker b = true ->
      exists s1 s2,
        In s1 (sp_segments (_extract_segments_from_page page page_num)) /\
        In s2 (sp_segments (_extract_segments_from_page page page_num)) /\
        seg_type s1 = SText /\ seg_type s2 = SLatex /\
        seg_bbox s1 = blk_bbox b /\ seg_bbox s2 = blk_bbox b /\
        seg_content s1 = blk_text b /\ seg_content s2 = blk_text b
  | _, _, _, _ =>
      forall s, In s (sp_segments (_extract_segments_from_page page page_num)) ->
        seg_type s <> SLatex
  end.
Proof.
  unfold _extract_segments_from_page. cbn [sp_segments].
  destruct (pg_blocks page) as [blocks|kb]; [|intros s []].
  destruct (pg_images page) as [imgs|ki];
    [|cbv beta iota zeta; intros s Hs; exact (text_segments_not_latex _ _ Hs)].
  destruct (pg_tables page) as [tables|kt].
  2:{ cbv beta iota zeta. intros s Hs. split_in;
      [exact (text_segments_not_latex _ _ Hs)
      | apply in_flat_map in Hs as [img [_ Hs]];
        rewrite (image_segment_type img s Hs); discriminate]. }
  destruct (pg_drawings page) as [drawings|kd].
  2:{ cbv beta iota zeta. intros s Hs. split_in;
      [exact (text_segments_not_latex _ _ Hs)
      | apply in_flat_map in Hs as [img [_ Hs]];
        rewrite (image_segment_type img s Hs); discriminate
      | exact (table_segments_not_latex _ _ Hs)]. }
  cbv beta iota zeta. intros b Hin Hm.
  exists (text_segment b).
  exists {| seg_type := SLatex; seg_content := blk_text b; seg_bbox := blk_bbox b;
            seg_image_data := None |}.
  repeat split.
  - rewrite <- !app_assoc. apply in_or_app. left. apply in_map, Hin.
  - apply in_or_app. right. apply in_flat_map. exists b. split; [exact Hin|].
    unfold latex_segment. unfold has_latex_marker in Hm. rewrite Hm. left. reflexivity.
Qed.

(** The C5 theorem on [good_page] and on [bad_page]. *)
Lemma segments_latex_block_twice_witness :
  (exists s1 s2,
    In s1 (sp_segments (_extract_segments_from_page good_page 0)) /\
    In s2 (sp_segments (_extract_segments_from_page good_page 0)) /\
    seg_type s1 = SText /\ seg_type s2 = SLatex /\
    seg_bbox s1 = r1 /\ seg_bbox s2 = r1 /\
    seg_content s1 = "x = \frac{1}{2}" /\ seg_content s2 = "x = \frac{1}{2}") /\
  (forall s, In s (sp_segments (_extract_segments_from_page bad_page 1)) ->
     seg_type s <> SLatex).
Proof.
  split.
  - exact (segments_latex_block_twice good_page 0
             {| blk_bbox := r1; blk_text := "x = \frac{1}{2}" |}
             (or_introl eq_refl) eq_refl).
  - exact (segments_latex_block_twice bad_page 1).
Defined.

(** Position of each segment type in the scan order. *)
Definition seg_rank (t : SegType) : nat :=
  match t with SText => 0 | SImage => 1 | STable => 2 | SChart => 3 | SLatex => 4 end.

(** [l] is non-decreasing and bounded below by [lo]. *)
Fixpoint sorted_from (lo : nat) (l : list nat) : bool :=
  match l with
  | [] => true
  | x :: l' => Nat.leb lo x && sorted_from x l'
  end.

Definition ranks (segs : list Segment) : list nat :=
  map (fun s => seg_rank (seg_type s)) segs.

Lemma ranks_const segs t :
  (forall s, In s segs -> seg_type s = t) -> ranks segs = repeat (seg_rank t) (length segs).
Proof.
  induction segs as [|s segs IH]; intros H; simpl; [reflexivity|].
  rewrite (H s (or_introl eq_refl)), IH; [reflexivity|].
  intros s' Hs'. apply H. right. exact Hs'.
Qed.

Lemma sorted_from_repeat lo x n l :
  lo <= x -> sorted_from x l = true ->
  sorted_from lo (repeat x n ++ l) = true.
Proof.
  intros Hlo Hl. revert lo Hlo. induction n as [|n IH]; intros lo Hlo; simpl.
  - destruct l as [|y l']; simpl in *; [reflexivity|].
    apply andb_true_iff in Hl as [Hxy Hl']. apply Nat.leb_le in Hxy.
    rewrite Hl', andb_true_r. apply Nat.leb_le. lia.
  - rewrite IH by lia. rewrite andb_true_r. apply Nat.leb_le. exact Hlo.
Qed.

Lemma ranks_app a b : ranks (a ++ b) = ranks a ++ ranks b.
Proof. apply map_app. Qed.

Lemma sorted_from_repeat_end lo x n : lo <= x -> sorted_from lo (repeat x n) = true.
Proof.
  intros H. rewrite <- (app_nil_r (repeat x n)). apply sorted_from_repeat; auto.
Qed.

Lemma ranks_text blocks :
  ranks (map text_segment blocks) = repeat 0 (length (map text_segment blocks)).
Proof.
  apply (ranks_const _ SText). intros s Hs. apply in_map_iff in Hs as [b [<- _]].
  reflexivity.
Qed.

Lemma ranks_images imgs :
  ranks (flat_map image_segment imgs) = repeat 1 (length (flat_map image_segment imgs)).
Proof.
  apply (ranks_const _ SImage). intros s Hs. apply in_flat_map in Hs as [img [_ Hs]].
  exact (image_segment_type img s Hs).
Qed.

Lemma ranks_tables tables :
  ranks (map table_segment tables) = repeat 2 (length (map table_segment tables)).
Proof.
  apply (ranks_const _ STable). intros s Hs. apply in_map_iff in Hs as [t [<- _]].
  reflexivity.
Qed.

Lemma ranks_charts drawings :
  ranks (flat_map chart_segment drawings)
  = repeat 3 (length (flat_map chart_segment drawings)).
Proof.
  apply (ranks_const _ SChart). intros s Hs. apply in_flat_map in Hs as [d [_ Hs]].
  unfold chart_segment in Hs. destruct (Nat.ltb 10 (drw_items d)); simpl in Hs;
    [destruct Hs as [<- | []]; reflexivity | contradiction].
Qed.

Lemma ranks_latex blocks :
  ranks (flat_map latex_segment blocks) = repeat 4 (length (flat_map latex_segment blocks)).
Proof.
  apply (ranks_const _ SLatex). intros s Hs. apply in_flat_map in Hs as [b [_ Hs]].
  unfold latex_segment in Hs. destruct (existsb _ _); simpl in Hs;
    [destruct Hs as [<- | []]; reflexivity | contradiction].
Qed.

Ltac solve_sorted :=
  repeat first
    [ reflexivity
    | apply sorted_from_repeat; [lia|]
    | apply sorted_from_repeat_end; lia ].

(** C8: within one page's segment list the types follow the scan order
    text, image, table, chart, latex (ranks never decrease), whichever
    stage raises; each stage reads its own input, so the LaTeX stage scans
    the same blocks as the text stage (see C5 for a block listed twice). *)
Theorem segments_scan_order page page_num :
  sorted_from 0 (ranks (sp_segments (_extract_segments_from_page page page_num))) = true.
Proof.
  unfold _extract_segments_from_page. cbn [sp_segments].
  destruct (pg_blocks page) as [blocks|]; [|reflexivity].
  destruct (pg_images page) as [imgs|];
  [destruct (pg_tables page) as [tables|];
   [destruct (pg_drawings page) as [drawings|] |] |];
  rewrite ?ranks_app, ?ranks_text, ?ranks_images, ?ranks_tables, ?ranks_charts,
          ?ranks_latex, <- ?app_assoc;
  solve_sorted.
Qed.

(* ------------------------------------------------------------------ *)
(** ** Blocking and cooperative extraction *)

Lemma async_page_loop_result fl doc page_nums acc :
  snd (async_page_loop fl doc page_nums acc) = page_loop fl doc page_nums acc.
Proof.
  revert acc. induction page_nums as [|i rest IH]; intros acc; [reflexivity|].
  cbn [async_page_loop page_loop].
  destruct (of_res (doc_getitem doc i)) as [page|e]; [|reflexivity].
  cbn [bind]. rewrite <- IH. destruct (async_page_loop fl doc rest _). reflexivity.
Qed.

Lemma async_extract_pdf_snd cfg fs input_data sm fl :
  snd (async_extract_pdf cfg fs input_data sm fl)
  = match open_input cfg fs input_data sm with
    | Raise e => Raise (handle_extract_exn e)
    | Ok doc =>
        match extract_document fl doc with
        | Ok r => Ok r
        | Raise e => Raise (handle_extract_exn e)
        end
    end.
Proof.
  unfold async_extract_pdf, extract_document. cbv zeta.
  destruct (open_input cfg fs input_data sm) as [doc|e]; [|reflexivity].
  rewrite <- async_page_loop_result.
  destruct (async_page_loop fl doc (seq 0 (_get_page_count doc)) []). reflexivity.
Qed.

(** The two implementations agree when the keyword [safe_mode] is [True],
    and on bytes whatever the keyword: they differ only through the
    keyword the decorator swallows. *)
Lemma sync_async_agree cfg fs input_data sm fl :
  (sm = true \/ exists b, input_data = InBytes b) ->
  fst (sync_extract_pdf cfg fs input_data sm fl)
  = snd (async_extract_pdf cfg fs input_data sm fl).
Proof.
  intros Hsm. rewrite sync_extract_pdf_spec, async_extract_pdf_snd.
  assert (Hopen : open_input cfg fs input_data true = open_input cfg fs input_data sm).
  { destruct Hsm as [-> | [b ->]]; reflexivity. }
  rewrite Hopen. reflexivity.
Qed.

(* ------------------------------------------------------------------ *)
(** ** Directory walker *)

(** C7 (code_bug): the walker keys each result by
    [file_path.relative_to(directory_path)], the argument as given, while
    [file_path] is resolved: for the relative root ["docs"] every
    [relative_to] raises, the exception is swallowed with the document, and
    the result is empty; the same directory given as [/base/docs] yields
    the two valid documents and skips [c.txt]. *)
Theorem sync_extract_pdfs_from_directory_relative_root :
  traverse_directory cfg0 fs0 "docs" true
    = Ok [["base"; "docs"; "a.pdf"]; ["base"; "docs"; "b.pdf"]] /\
  fst (sync_extract_pdfs_from_directory cfg0 fs0 "docs" true all_flags) = Ok [] /\
  exists d, fst (sync_extract_pdfs_from_directory cfg0 fs0 "/base/docs" true all_flags)
              = Ok d /\ map fst d = ["a.pdf"; "b.pdf"].
Proof.
  split; [reflexivity | split; [reflexivity|]].
  eexists. split; [reflexivity | reflexivity].
Qed.

(* ------------------------------------------------------------------ *)
(** ** Further properties of the extractors *)

Fixpoint text_loop (pages : list Page) (page_num : nat) : list TextRecord :=
  match pages with
  | [] => []
  | page :: rest => _extract_text_from_page page page_num :: text_loop rest (S page_num)
  end.

Lemma loop_output_text pages n :
  loop_output KText pages n = map ITxt (text_loop pages n).
Proof.
  revert n. induction pages as [|p ps IH]; intros n; simpl; [reflexivity|].
  rewrite IH. reflexivity.
Qed.

Lemma text_loop_numbers pages n :
  map tr_page_number (text_loop pages n) = seq (S n) (length pages).
Proof.
  revert n. induction pages as [|p ps IH]; intros n; simpl; [reflexivity|].
  rewrite IH. f_equal. unfold _extract_text_from_page.
  destruct (pg_text p); simpl; lia.
Qed.

Lemma text_loop_nth pages n i :
  nth_error (text_loop pages n) i
  = match nth_error pages i with
    | Some page => Some (_extract_text_from_page page (n + i))
    | None => None
    end.
Proof.
  revert n i. induction pages as [|p ps IH]; intros n i; simpl.
  - destruct i; reflexivity.
  - destruct i as [|i]; simpl.
    + rewrite Nat.add_0_r. reflexivity.
    + rewrite IH. replace (n + S i) with (S n + i) by lia. reflexivity.
Qed.

(** With [text] enabled, when the page loop returns, the ["text"] list
    has one record per page of the page count N, numbered 1..N; a page
    whose [get_text()] raises is kept, with the placeholder naming its
    1-based number. *)
Theorem extract_document_text fl doc r :
  f_text fl = true -> extract_document fl doc = Ok r ->
  exists recs,
    default_nil (lookup "text" r) = map ITxt recs /\
    map tr_page_number recs = seq 1 (_get_page_count doc) /\
    (forall i page rec, doc_getitem doc i = ROk page -> nth_error recs i = Some rec ->
       tr_content rec = match pg_text page with
                        | ROk t => t
                        | RErr _ => String.append "Error: Unable to extract text from page "
                                      (str_of_nat (S i))
                        end).
Proof.
  intros Ht Hr. destruct (extract_document_ok _ _ _ Hr) as [pages [Hl ->]].
  exists (text_loop pages 0). split; [|split].
  - change "text" with (key_name KText). rewrite lookup_extract_document.
    destruct pages as [|p ps]; [reflexivity|].
    cbn [key_flag]. rewrite Ht. cbn [default_nil]. apply loop_output_text.
  - rewrite text_loop_numbers, (loaded_length _ _ Hl). reflexivity.
  - intros i page rec Hp Hr'. rewrite text_loop_nth in Hr'.
    destruct (nth_error pages i) as [p|] eqn:Hpi; [|discriminate].
    rewrite (loaded_nth _ _ _ _ Hl Hpi) in Hp. injection Hp as ->.
    injection Hr' as <-. unfold _extract_text_from_page.
    destruct (pg_text page); simpl; [reflexivity|].
    rewrite Nat.add_1_r. reflexivity.
Qed.

Lemma extract_document_text_witness :
  f_text all_flags = true /\
  extract_document all_flags doc0 = Ok (process_pages all_flags [good_page; bad_page] 0 []) /\
  exists recs,
    default_nil (lookup "text" (process_pages all_flags [good_page; bad_page] 0 []))
      = map ITxt recs /\
    map tr_page_number recs = [1; 2] /\
    (forall i page rec, doc_getitem doc0 i = ROk page ->
       nth_error recs i = Some rec ->
       tr_content rec = match pg_text page with
                        | ROk t => t
                        | RErr _ => String.append "Error: Unable to extract text from page "
                                      (str_of_nat (S i))
                        end).
Proof.
  split; [reflexivity | split; [reflexivity|]].
  exact (extract_document_text all_flags doc0 _ eq_refl eq_refl).
Defined.

(** Tables are all or nothing per page: if [table.extract()] raises for
    one table, the page contributes no table record at all, also for the
    tables before it. *)
Theorem tables_all_or_nothing page page_num ts t k :
  pg_tables page = ROk ts -> In t ts -> tab_extract t = RErr k ->
  _extract_tables_from_page page page_num = [].
Proof.
  intros Hts Hin Hk. unfold _extract_tables_from_page. rewrite Hts.
  enough (H : exists k', table_loop page_num ts = RErr k') by
    (destruct H as [k' ->]; reflexivity).
  clear Hts. induction ts as [|t' ts IH]; [destruct Hin|]. simpl.
  destruct Hin as [<- | Hin].
  - unfold table_record at 1. rewrite Hk. eexists; reflexivity.
  - destruct (table_record page_num t'); [|eexists; reflexivity].
    destruct (IH Hin) as [k' ->]. eexists; reflexivity.
Qed.

Definition table_fails : Table :=
  {| tab_cells := 4; tab_bbox := r0; tab_extract := RErr ValueError |}.
Definition table_ok : Table :=
  {| tab_cells := 4; tab_bbox := r0;
     tab_extract := ROk [[Some "a"; Some "b"]; [Some "c"]] |}.
Definition table_page : Page :=
  {| pg_text := ROk ""; pg_blocks := ROk []; pg_images := ROk [];
     pg_tables := ROk [table_ok; table_fails]; pg_drawings := ROk [];
     pg_pixmap := ROk "png" |}.

Lemma tables_all_or_nothing_witness :
  pg_tables table_page = ROk [table_ok; table_fails] /\
  In table_fails [table_ok; table_fails] /\ tab_extract table_fails = RErr ValueError /\
  _extract_tables_from_page table_page 0 = [].
Proof.
  split; [reflexivity | split; [right; left; reflexivity | split; [reflexivity|]]].
  apply (tables_all_or_nothing table_page 0 [table_ok; table_fails] table_fails ValueError);
    first [reflexivity | right; left; reflexivity].
Defined.

Lemma table_loop_ok page_num ts :
  (forall t, In t ts -> exists rows, tab_extract t = ROk rows) ->
  exists rs, table_loop page_num ts = ROk rs /\ length rs = length ts /\
    forall r, In r rs -> exists t rows, In t ts /\ tab_extract t = ROk rows /\
      table_record page_num t = ROk r.
Proof.
  induction ts as [|t ts IH]; intros H; simpl.
  - exists []. split; [reflexivity | split; [reflexivity | intros r []]].
  - destruct (H t (or_introl eq_refl)) as [rows Hrows].
    destruct IH as [rs [Hrs [Hlen Hin]]]; [intros t' Ht'; apply H; right; exact Ht'|].
    unfold table_record at 1. rewrite Hrows, Hrs.
    eexists. split; [reflexivity | split; [simpl; lia|]].
    intros r [<- | Hr].
    + exists t, rows. split; [left; reflexivity | split; [exact Hrows|]].
      unfold table_record. rewrite Hrows. reflexivity.
    + destruct (Hin r Hr) as [t' [rows' [Ht' Hx]]]. exists t', rows'.
      split; [right; exact Ht' | exact Hx].
Qed.

(** When every table of the page extracts, the page gives one record per
    table, numbered with the page's 1-based number, whose metadata agree
    with its content: the columns are [0 .. ncols-1] with ncols the
    second component of the shape, there are as many rows as the first
    component, and every row has exactly one entry per column, keyed by
    the column label as a JSON string. *)
Theorem tables_record_shape page page_num ts :
  pg_tables page = ROk ts ->
  (forall t, In t ts -> exists rows, tab_extract t = ROk rows) ->
  length (_extract_tables_from_page page page_num) = length ts /\
  forall r, In r (_extract_tables_from_page page page_num) ->
    tb_page_number r = page_num + 1 /\
    tb_columns r = seq 0 (snd (tb_shape r)) /\
    length (tb_content r) = fst (tb_shape r) /\
    (forall row, In row (tb_content r) -> map fst row = map str_of_nat (tb_columns r)).
Proof.
  intros Hts Hok. unfold _extract_tables_from_page. rewrite Hts.
  destruct (table_loop_ok page_num ts Hok) as [rs [Hrs [Hlen Hin]]]. rewrite Hrs.
  split; [exact Hlen|].
  intros r Hr. destruct (Hin r Hr) as [t [rows [_ [Hrows Htr]]]].
  unfold table_record in Htr. rewrite Hrows in Htr. injection Htr as <-. cbn.
  split; [reflexivity | split; [reflexivity | split]].
  - unfold df_records. apply length_map.
  - intros row Hrow. unfold df_records in Hrow. apply in_map_iff in Hrow as [x [<- _]].
    rewrite map_map. reflexivity.
Qed.

Definition table_ok_page : Page :=
  {| pg_text := ROk ""; pg_blocks := ROk []; pg_images := ROk [];
     pg_tables := ROk [table_ok]; pg_drawings := ROk []; pg_pixmap := ROk "png" |}.

Lemma tables_record_shape_witness :
  pg_tables table_ok_page = ROk [table_ok] /\
  (forall t, In t [table_ok] -> exists rows, tab_extract t = ROk rows) /\
  length (_extract_tables_from_page table_ok_page 0) = 1 /\
  forall r, In r (_extract_tables_from_page table_ok_page 0) ->
    tb_page_number r = 1 /\ tb_columns r = seq 0 (snd (tb_shape r)) /\
    length (tb_content r) = fst (tb_shape r) /\
    (forall row, In row (tb_content r) -> map fst row = map str_of_nat (tb_columns r)).
Proof.
  assert (Hok : forall t, In t [table_ok] -> exists rows, tab_extract t = ROk rows).
  { intros t [<- | []]. eexists; reflexivity. }
  split; [reflexivity | split; [exact Hok|]].
  exact (tables_record_shape table_ok_page 0 [table_ok] eq_refl Hok).
Defined.




Definition img_good : Img :=
  {| img_xref := 7; img_extract := ROk "jpg"; img_decode := ROk tt;
     img_bbox_item := ROk r0; img_bbox_xref := ROk r0; img_ocr := ROk "hello" |}.
Definition img_undecodable : Img :=
  {| img_xref := 8; img_extract := ROk "??"; img_decode := RErr ValueError;
     img_bbox_item := ROk r1; img_bbox_xref := ROk r1; img_ocr := ROk "" |}.


(** Each embedded image gives at most one segment, of type [image]: with
    a payload, it holds the image's OCR text, the bbox from
    [get_image_bbox(img)] and the base64 of its bytes; without one, it is
    the degraded segment ["Image data not available"], emitted only when
    the per-image [try] raised [ValueError], with the bbox from
    [get_image_bbox(xref)]. *)
Theorem image_segment_shape img :
  length (image_segment img) <= 1 /\
  forall s, In s (image_segment img) ->
    seg_type s = SImage /\
    match seg_image_data s with
    | None => seg_content s = "Image data not available" /\
              image_segment_body img = RErr ValueError /\
              img_bbox_xref img = ROk (seg_bbox s)
    | Some d => exists b, img_extract img = ROk b /\ d = B64 b /\
                img_ocr img = ROk (seg_content s) /\ img_bbox_item img = ROk (seg_bbox s)
    end.
Proof.
  unfold image_segment.
  destruct (image_segment_body img) as [segs|k] eqn:Hb.
  - unfold image_segment_body in Hb.
    destruct (img_extract img) as [b|] eqn:He; [|discriminate].
    destruct (String.eqb b ""); [injection Hb as <-; split; [simpl; lia | intros s []]|].
    destruct (img_decode img); [|discriminate].
    destruct (img_bbox_item img) as [r|] eqn:Hr; [|discriminate].
    destruct (img_ocr img) as [o|] eqn:Ho; [|discriminate].
    injection Hb as <-. split; [simpl; lia|].
    intros s [<- | []]. split; [reflexivity|]. exists b. repeat split; assumption.
  - destruct k; try (split; [simpl; lia | intros s []]).
    destruct (img_bbox_xref img) as [r|] eqn:Hx; [|split; [simpl; lia | intros s []]].
    split; [simpl; lia|]. intros s [<- | []]. split; [reflexivity|].
    repeat split; assumption.
Qed.

(** Number of segments of type [t]. *)
Definition count_type (t : SegType) (segs : list Segment) : nat :=
  length (filter (fun s => Nat.eqb (seg_rank (seg_type s)) (seg_rank t)) segs).

Lemma count_type_app t a b : count_type t (a ++ b) = count_type t a + count_type t b.
Proof. unfold count_type. rewrite filter_app, length_app. reflexivity. Qed.

Lemma count_type_const t t' l :
  (forall s, In s l -> seg_type s = t') ->
  count_type t l = if Nat.eqb (seg_rank t') (seg_rank t) then length l else 0.
Proof.
  unfold count_type. induction l as [|s l IH]; intros H; simpl.
  - destruct (Nat.eqb _ _); reflexivity.
  - rewrite (H s (or_introl eq_refl)).
    assert (IH' := IH (fun s' Hs' => H s' (or_intror Hs'))).
    destruct (Nat.eqb (seg_rank t') (seg_rank t)) eqn:E; simpl; rewrite IH'; reflexivity.
Qed.

Lemma text_stage_type blocks s : In s (map text_segment blocks) -> seg_type s = SText.
Proof. intros Hs. apply in_map_iff in Hs as [b [<- _]]. reflexivity. Qed.

Lemma image_stage_type imgs s : In s (flat_map image_segment imgs) -> seg_type s = SImage.
Proof. intros Hs. apply in_flat_map in Hs as [img [_ Hs]]. exact (image_segment_type img s Hs). Qed.

Lemma table_stage_type ts s : In s (map table_segment ts) -> seg_type s = STable.
Proof. intros Hs. apply in_map_iff in Hs as [t [<- _]]. reflexivity. Qed.

Lemma chart_stage_type ds s : In s (flat_map chart_segment ds) -> seg_type s = SChart.
Proof.
  intros Hs. apply in_flat_map in Hs as [d [_ Hs]]. unfold chart_segment in Hs.
  destruct (Nat.ltb 10 (drw_items d)); [destruct Hs as [<- | []]; reflexivity | destruct Hs].
Qed.

Lemma latex_stage_type blocks s : In s (flat_map latex_segment blocks) -> seg_type s = SLatex.
Proof.
  intros Hs. apply in_flat_map in Hs as [b [_ Hs]]. unfold latex_segment in Hs.
  destruct (existsb _ _); [destruct Hs as [<- | []]; reflexivity | destruct Hs].
Qed.

Lemma length_chart_stage ds :
  length (flat_map chart_segment ds) = length (filter (fun d => Nat.ltb 10 (drw_items d)) ds).
Proof.
  induction ds as [|d ds IH]; simpl; [reflexivity|].
  rewrite length_app, IH. unfold chart_segment. destruct (Nat.ltb 10 (drw_items d)); reflexivity.
Qed.

Lemma length_latex_stage blocks :
  length (flat_map latex_segment blocks) = length (filter has_latex_marker blocks).
Proof.
  induction blocks as [|b bs IH]; simpl; [reflexivity|].
  rewrite length_app, IH. unfold latex_segment, has_latex_marker.
  destruct (existsb _ _); reflexivity.
Qed.

Lemma length_image_stage imgs : length (flat_map image_segment imgs) <= length imgs.
Proof.
  induction imgs as [|img imgs IH]; simpl; [lia|].
  rewrite length_app. pose proof (proj1 (image_segment_shape img)). lia.
Qed.

(** When none of the page-level calls of the segment scan raises, a page
    has one [text] segment per text block, at most one [image] segment
    per embedded image, one [table] segment per table, one [chart]
    segment per drawing of more than ten items, and one [latex] segment
    per block containing a marker. *)
Theorem segment_counts page page_num blocks imgs tables drawings :
  pg_blocks page = ROk blocks -> pg_images page = ROk imgs ->
  pg_tables page = ROk tables -> pg_drawings page = ROk drawings ->
  let segs := sp_segments (_extract_segments_from_page page page_num) in
  count_type SText segs = length blocks /\
  count_type SImage segs <= length imgs /\
  count_type STable segs = length tables /\
  count_type SChart segs = length (filter (fun d => Nat.ltb 10 (drw_items d)) drawings) /\
  count_type SLatex segs = length (filter has_latex_marker blocks).
Proof.
  intros Hb Hi Ht Hd segs. subst segs.
  unfold _extract_segments_from_page. rewrite Hb, Hi, Ht, Hd. cbn [sp_segments].
  rewrite !count_type_app.
  repeat rewrite (count_type_const _ SText _ (text_stage_type blocks)).
  repeat rewrite (count_type_const _ SImage _ (image_stage_type imgs)).
  repeat rewrite (count_type_const _ STable _ (table_stage_type tables)).
  repeat rewrite (count_type_const _ SChart _ (chart_stage_type drawings)).
  repeat rewrite (count_type_const _ SLatex _ (latex_stage_type blocks)).
  cbn [seg_rank Nat.eqb].
  rewrite !length_map, length_chart_stage, length_latex_stage.
  pose proof (length_image_stage imgs).
  repeat split; lia.
Qed.

Definition chart_page : Page :=
  {| pg_text := ROk ""; pg_blocks := ROk [{| blk_bbox := r1; blk_text := "\sum_k" |};
                                          {| blk_bbox := r0; blk_text := "plain" |}];
     pg_images := ROk [img_undecodable; img_good];
     pg_tables := ROk [table_ok];
     pg_drawings := ROk [{| drw_items := 10; drw_rect := r0 |};
                         {| drw_items := 11; drw_rect := r1 |}];
     pg_pixmap := ROk "png" |}.

Lemma segment_counts_witness :
  let segs := sp_segments (_extract_segments_from_page chart_page 0) in
  count_type SText segs = 2 /\ count_type SImage segs <= 2 /\
  count_type STable segs = 1 /\ count_type SChart segs = 1 /\
  count_type SLatex segs = 1.
Proof.
  exact (segment_counts chart_page 0 _ _ _ _ eq_refl eq_refl eq_refl eq_refl).
Defined.

(* ------------------------------------------------------------------ *)
(** ** Paths: normal form and round trip *)

Fixpoint no_slash (c : string) : bool :=
  match c with
  | EmptyString => true
  | String ch c' => negb (Ascii.eqb ch "/"%char) && no_slash c'
  end.

(** A component of a resolved path: no slash, not empty, not ["."] or [".."]. *)
Definition clean_component (c : string) : bool :=
  no_slash c && negb (String.eqb c "" || String.eqb c "." || String.eqb c "..").

Lemma str_app_assoc (a b c : string) :
  String.append (String.append a b) c = String.append a (String.append b c).
Proof. induction a as [|ch a IH]; simpl; [reflexivity|]. rewrite IH. reflexivity. Qed.

Lemma str_app_nil (a : string) : String.append a "" = a.
Proof. induction a as [|ch a IH]; simpl; [reflexivity|]. rewrite IH. reflexivity. Qed.

Lemma no_slash_app a b : no_slash (String.append a b) = no_slash a && no_slash b.
Proof.
  induction a as [|ch a IH]; simpl; [reflexivity|]. rewrite IH. apply andb_assoc.
Qed.

Lemma split_slash_aux_noslash c rest cur :
  no_slash c = true ->
  split_slash_aux (String.append c rest) cur = split_slash_aux rest (String.append cur c).
Proof.
  revert cur. induction c as [|ch c IH]; intros cur H; simpl.
  - rewrite str_app_nil. reflexivity.
  - simpl in H. apply andb_true_iff in H as [Hch Hc].
    destruct (Ascii.eqb ch "/"%char); [discriminate|].
    rewrite IH by exact Hc. rewrite str_app_assoc. reflexivity.
Qed.

Lemma split_slash_concat p :
  p <> [] -> forallb no_slash p = true ->
  split_slash_aux (String.concat "/" p) "" = p.
Proof.
  induction p as [|c p IH]; intros Hne H; [congruence|].
  simpl in H. apply andb_true_iff in H as [Hc Hp].
  destruct p as [|c' p].
  - simpl. rewrite <- (str_app_nil c) at 1.
    rewrite split_slash_aux_noslash by exact Hc. reflexivity.
  - change (String.concat "/" (c :: c' :: p))
      with (String.append c (String.append "/" (String.concat "/" (c' :: p)))).
    rewrite split_slash_aux_noslash by exact Hc.
    change (split_slash_aux (String.append "/" ?r) ?cur) with (cur :: split_slash_aux r "").
    rewrite IH by (congruence || exact Hp). reflexivity.
Qed.

Lemma clean_component_spec c :
  clean_component c = true ->
  no_slash c = true /\ String.eqb c "" = false /\ String.eqb c "." = false /\
  String.eqb c ".." = false.
Proof.
  unfold clean_component. intros H.
  apply andb_true_iff in H as [Hs H].
  destruct (String.eqb c ""), (String.eqb c "."), (String.eqb c ".."); try discriminate.
  auto.
Qed.

Lemma normalize_clean acc p :
  forallb clean_component p = true -> normalize_aux acc p = rev acc ++ p.
Proof.
  revert acc. induction p as [|c p IH]; intros acc H; simpl.
  - rewrite app_nil_r. reflexivity.
  - simpl in H. apply andb_true_iff in H as [Hc Hp].
    destruct (clean_component_spec c Hc) as [_ [H1 [H2 H3]]].
    rewrite H1, H2, H3. simpl. rewrite IH by exact Hp. simpl.
    rewrite <- app_assoc. reflexivity.
Qed.

Lemma forallb_rev {A} (f : A -> bool) l : forallb f (rev l) = forallb f l.
Proof.
  induction l as [|x l IH]; simpl; [reflexivity|].
  rewrite forallb_app, IH. simpl. rewrite andb_true_r. apply andb_comm.
Qed.

Lemma split_slash_aux_all_noslash s cur :
  no_slash cur = true -> forallb no_slash (split_slash_aux s cur) = true.
Proof.
  revert cur. induction s as [|ch s IH]; intros cur H; simpl.
  - rewrite H. reflexivity.
  - destruct (Ascii.eqb ch "/"%char) eqn:E; simpl.
    + rewrite H. simpl. apply IH. reflexivity.
    + apply IH. rewrite no_slash_app, H. simpl. rewrite E. reflexivity.
Qed.

Lemma normalize_all_clean acc cs :
  forallb clean_component acc = true -> forallb no_slash cs = true ->
  forallb clean_component (normalize_aux acc cs) = true.
Proof.
  revert acc. induction cs as [|c cs IH]; intros acc Hacc Hcs; simpl.
  - rewrite forallb_rev. exact Hacc.
  - simpl in Hcs. apply andb_true_iff in Hcs as [Hc Hcs].
    destruct (String.eqb c "" || String.eqb c ".") eqn:E1; [apply IH; assumption|].
    destruct (String.eqb c "..") eqn:E2.
    + apply IH; [|exact Hcs]. destruct acc; simpl in *; [reflexivity|].
      apply andb_true_iff in Hacc as [_ Hacc]. exact Hacc.
    + apply IH; [|exact Hcs]. simpl. rewrite Hacc, andb_true_r.
      unfold clean_component. rewrite Hc, E2. rewrite Bool.orb_false_r, E1. reflexivity.
Qed.

Lemma resolve_clean cwd s :
  forallb clean_component cwd = true ->
  forallb clean_component (resolve cwd s) = true.
Proof.
  intros Hcwd. unfold resolve, split_slash.
  destruct s as [|ch s'];
    [| destruct (Ascii.eqb_spec ch "/"%char) as [->|Hne]];
    try apply normalize_all_clean; try rewrite forallb_rev;
    try (apply split_slash_aux_all_noslash; reflexivity); try exact Hcwd;
    try reflexivity.
  destruct ch as [[] [] [] [] [] [] [] []];
    try (apply normalize_all_clean;
         [rewrite forallb_rev; exact Hcwd
         | apply split_slash_aux_all_noslash; reflexivity]).
  exfalso. apply Hne. reflexivity.
Qed.

Lemma resolve_path_str cwd p :
  forallb clean_component p = true -> resolve cwd (path_str p) = p.
Proof.
  intros Hclean. destruct p as [|c p]; [reflexivity|].
  change (resolve cwd (path_str (c :: p)))
    with (normalize_aux [] (split_slash_aux (String.concat "/" (c :: p)) "")).
  rewrite split_slash_concat; [| discriminate |].
  - rewrite normalize_clean by exact Hclean. reflexivity.
  - apply forallb_forall. intros x Hx.
    rewrite forallb_forall in Hclean.
    exact (proj1 (clean_component_spec x (Hclean x Hx))).
Qed.

Lemma resolve_idem cwd s :
  forallb clean_component cwd = true ->
  resolve cwd (path_str (resolve cwd s)) = resolve cwd s.
Proof. intros Hcwd. apply resolve_path_str, resolve_clean, Hcwd. Qed.

(** [Path.resolve()] yields a normal form: with a normalised working
    directory, every component of a resolved path is a plain name (no
    [".."], ["."] or empty component is left, so no lexical traversal
    survives resolution), and resolving its string form [str(p)] again
    gives back the same path. *)
Theorem resolve_normal_form cwd s :
  forallb clean_component cwd = true ->
  forallb clean_component (resolve cwd s) = true /\
  resolve cwd (path_str (resolve cwd s)) = resolve cwd s.
Proof.
  intros Hcwd. split; [apply resolve_clean | apply resolve_idem]; exact Hcwd.
Qed.

Lemma resolve_normal_form_witness :
  forallb clean_component ["base"] = true /\
  resolve ["base"] "docs/../docs/./a.pdf" = ["base"; "docs"; "a.pdf"] /\
  forallb clean_component (resolve ["base"] "docs/../docs/./a.pdf") = true /\
  resolve ["base"] (path_str (resolve ["base"] "docs/../docs/./a.pdf"))
    = resolve ["base"] "docs/../docs/./a.pdf".
Proof.
  split; [reflexivity | split; [reflexivity|]].
  exact (resolve_normal_form ["base"] "docs/../docs/./a.pdf" eq_refl).
Defined.

(* ------------------------------------------------------------------ *)
(** ** Sandbox guarantees of [validate_path] and [traverse_directory] *)

Lemma Ok_inj {A} (a b : A) : @Ok A a = Ok b -> a = b.
Proof. congruence. Qed.

Lemma validate_path_ok_inv cfg fs s sm p :
  validate_path cfg fs s sm = Ok p ->
  p = resolve (fs_cwd fs) s /\
  (sm = true ->
   is_relative_to p (base_directory cfg) = true /\
   (is_dir fs p = false -> In (lower (suffix p)) (allowed_extensions cfg))).
Proof.
  unfold validate_path. intros H.
  destruct sm; [|simpl in H; injection H as <-; split; [reflexivity | discriminate]].
  destruct (is_dir fs (resolve (fs_cwd fs) s)) eqn:Hd;
    destruct (is_relative_to (resolve (fs_cwd fs) s) (base_directory cfg)) eqn:Hr;
    simpl in H; try discriminate.
  - injection H as <-. split; [reflexivity|]. intros _. split; [exact Hr | congruence].
  - destruct (mem_str (lower (suffix (resolve (fs_cwd fs) s))) (allowed_extensions cfg)) eqn:Hm;
      simpl in H; [|discriminate].
    injection H as <-. split; [reflexivity|]. intros _. split; [exact Hr|].
    intros _. apply mem_str_In. exact Hm.
Qed.

Lemma validate_path_resolve_eq cfg fs s t sm :
  resolve (fs_cwd fs) s = resolve (fs_cwd fs) t ->
  validate_path cfg fs s sm = validate_path cfg fs t sm.
Proof. unfold validate_path. intros ->. reflexivity. Qed.

(** An accepted path is [Path(file_path).resolve()]; in safe mode it lies
    under the base directory and, unless it is a directory, carries an
    allowed extension (compared in lower case); and the string form of an
    accepted path is accepted again, unchanged, so a later re-validation of
    a returned path (as [sync_extract_pdf] does for every file of a
    directory walk) succeeds. *)
Theorem validate_path_sound cfg fs s sm p :
  forallb clean_component (fs_cwd fs) = true ->
  validate_path cfg fs s sm = Ok p ->
  p = resolve (fs_cwd fs) s /\
  (sm = true ->
   is_relative_to p (base_directory cfg) = true /\
   (is_dir fs p = false -> In (lower (suffix p)) (allowed_extensions cfg))) /\
  validate_path cfg fs (path_str p) sm = Ok p.
Proof.
  intros Hcwd H.
  destruct (validate_path_ok_inv _ _ _ _ _ H) as [Hp Hsafe].
  split; [exact Hp | split; [exact Hsafe|]].
  rewrite <- H. apply validate_path_resolve_eq.
  rewrite Hp. apply (resolve_idem (fs_cwd fs) s Hcwd).
Qed.

Lemma validate_path_sound_witness :
  forallb clean_component (fs_cwd fs0) = true /\
  validate_path cfg0 fs0 "docs/../docs/A.Pdf" true = Ok ["base"; "docs"; "A.Pdf"] /\
  ["base"; "docs"; "A.Pdf"] = resolve (fs_cwd fs0) "docs/../docs/A.Pdf" /\
  (true = true ->
   is_relative_to ["base"; "docs"; "A.Pdf"] (base_directory cfg0) = true /\
   (is_dir fs0 ["base"; "docs"; "A.Pdf"] = false ->
    In (lower (suffix ["base"; "docs"; "A.Pdf"])) (allowed_extensions cfg0))) /\
  validate_path cfg0 fs0 (path_str ["base"; "docs"; "A.Pdf"]) true = Ok ["base"; "docs"; "A.Pdf"].
Proof.
  assert (Hv : validate_path cfg0 fs0 "docs/../docs/A.Pdf" true = Ok ["base"; "docs"; "A.Pdf"])
    by (vm_compute; reflexivity).
  split; [reflexivity | split; [exact Hv|]].
  exact (validate_path_sound cfg0 fs0 "docs/../docs/A.Pdf" true _ eq_refl Hv).
Defined.

Lemma in_flat_map_validate cfg fs sm ws f :
  In f (flat_map (fun w => match validate_path cfg fs (path_str w) sm with
                           | Ok file_path => [file_path]
                           | Raise _ => []
                           end) ws) ->
  exists w, In w ws /\ validate_path cfg fs (path_str w) sm = Ok f.
Proof.
  intros H. apply in_flat_map in H as [w [Hw Hf]].
  exists w. split; [exact Hw|].
  destruct (validate_path cfg fs (path_str w) sm) as [q|e]; [|contradiction].
  destruct Hf as [<- | []]. reflexivity.
Qed.

(** In safe mode, [traverse_directory] succeeds only on a directory, and
    every file it returns is a walked entry of that directory, resolved;
    it lies under the base directory, has an allowed extension unless it is
    a directory, and passes [validate_path] again unchanged. *)
Theorem traverse_directory_safe cfg fs d files f :
  forallb clean_component (fs_cwd fs) = true ->
  traverse_directory cfg fs d true = Ok files -> In f files ->
  is_dir fs (resolve (fs_cwd fs) d) = true /\
  (exists w, In w (fs_walk fs (resolve (fs_cwd fs) d)) /\
             f = resolve (fs_cwd fs) (path_str w)) /\
  is_relative_to f (base_directory cfg) = true /\
  (is_dir fs f = false -> In (lower (suffix f)) (allowed_extensions cfg)) /\
  validate_path cfg fs (path_str f) true = Ok f.
Proof.
  intros Hcwd H Hf. unfold traverse_directory, bind in H.
  destruct (validate_path cfg fs d true) as [dir|e] eqn:Hd; [|discriminate].
  destruct (validate_path_ok_inv _ _ _ _ _ Hd) as [Hdir _]. subst dir.
  destruct (is_dir fs (resolve (fs_cwd fs) d)) eqn:Hisdir; cbn [negb] in H; [|discriminate].
  apply Ok_inj in H. subst files.
  destruct (in_flat_map_validate _ _ _ _ _ Hf) as [w [Hw Hv]].
  destruct (validate_path_ok_inv _ _ _ _ _ Hv) as [Hfw Hsafe].
  destruct (Hsafe eq_refl) as [Hrel Hext].
  split; [reflexivity|]. split; [exists w; split; assumption|].
  split; [exact Hrel | split; [exact Hext|]].
  rewrite <- Hv. apply validate_path_resolve_eq.
  rewrite Hfw. apply (resolve_idem (fs_cwd fs) (path_str w) Hcwd).
Qed.

Lemma traverse_directory_safe_witness :
  forallb clean_component (fs_cwd fs0) = true /\
  traverse_directory cfg0 fs0 "docs" true
    = Ok [["base"; "docs"; "a.pdf"]; ["base"; "docs"; "b.pdf"]] /\
  is_relative_to ["base"; "docs"; "b.pdf"] (base_directory cfg0) = true /\
  validate_path cfg0 fs0 (path_str ["base"; "docs"; "b.pdf"]) true
    = Ok ["base"; "docs"; "b.pdf"].
Proof.
  assert (Ht : traverse_directory cfg0 fs0 "docs" true
               = Ok [["base"; "docs"; "a.pdf"]; ["base"; "docs"; "b.pdf"]])
    by (vm_compute; reflexivity).
  split; [reflexivity | split; [exact Ht|]].
  destruct (traverse_directory_safe cfg0 fs0 "docs" _ ["base"; "docs"; "b.pdf"]
              eq_refl Ht (or_intror (or_introl eq_refl)))
    as [_ [_ [Hrel [_ Hv]]]].
  split; [exact Hrel | exact Hv].
Defined.

(* ------------------------------------------------------------------ *)
(** ** Directory results *)

Lemma dict_set_keys k v d k' :
  In k' (map fst (dict_set k v d)) <-> k' = k \/ In k' (map fst d).
Proof.
  induction d as [|[k0 v0] d IH]; simpl.
  - intuition.
  - destruct (String.eqb_spec k k0) as [-> | Hne]; simpl.
    + intuition.
    + rewrite IH. intuition.
Qed.

Lemma dict_set_nodup k v d :
  NoDup (map fst d) -> NoDup (map fst (dict_set k v d)).
Proof.
  induction d as [|[k0 v0] d IH]; simpl; intros H.
  - constructor; [intros []|constructor].
  - inversion H as [|? ? Hnot Hd]; subst.
    destruct (String.eqb k k0) eqn:E; simpl.
    + constructor; assumption.
    + constructor; [|apply IH, Hd].
      rewrite dict_set_keys. intros [-> | Hin]; [|contradiction].
      rewrite String.eqb_refl in E. discriminate.
Qed.

Lemma dict_set_in k v d k' v' :
  In (k', v') (dict_set k v d) -> (k' = k /\ v' = v) \/ In (k', v') d.
Proof.
  induction d as [|[k0 v0] d IH]; simpl.
  - intros [H | []]. injection H as <- <-. left. split; reflexivity.
  - destruct (String.eqb_spec k k0) as [-> | Hne]; simpl.
    + intros [H | H]; [injection H as <- <-; left; split; reflexivity | right; right; exact H].
    + intros [H | H]; [right; left; exact H|].
      destruct (IH H) as [Hkv | Hin]; [left; exact Hkv | right; right; exact Hin].
Qed.

Section DirFold.

(** One iteration of the directory loops, for an extraction function
    [extract] applied to each file. *)
Variable extract : path -> Exc DocumentResult.
Variable directory_path : string.

Definition dir_step (extracted_data : DirectoryResult) (file_path : path)
  : DirectoryResult :=
  match extract file_path with
  | Raise _ => extracted_data
  | Ok extracted_content =>
      match relative_to_str file_path directory_path with
      | ROk rel => dict_set (join_slash rel) extracted_content extracted_data
      | RErr _ => extracted_data
      end
  end.

Lemma dir_fold_nodup files acc :
  NoDup (map fst acc) -> NoDup (map fst (fold_left dir_step files acc)).
Proof.
  revert acc. induction files as [|f files IH]; intros acc H; simpl; [exact H|].
  apply IH. unfold dir_step.
  destruct (extract f); [|exact H].
  destruct (relative_to_str f directory_path); [apply dict_set_nodup|]; exact H.
Qed.

Lemma dir_fold_sound files acc k v :
  In (k, v) (fold_left dir_step files acc) ->
  In (k, v) acc \/
  exists f rel, In f files /\ relative_to_str f directory_path = ROk rel /\
                join_slash rel = k /\ extract f = Ok v.
Proof.
  revert acc. induction files as [|f files IH]; intros acc H; simpl in *; [left; exact H|].
  destruct (IH _ H) as [Hacc | [f' [rel [Hf [Hr [Hk Hv]]]]]].
  - unfold dir_step in Hacc.
    destruct (extract f) as [c|e] eqn:Ef; [|left; exact Hacc].
    destruct (relative_to_str f directory_path) as [rel|e] eqn:Er; [|left; exact Hacc].
    destruct (dict_set_in _ _ _ _ _ Hacc) as [[-> ->] | Hin]; [|left; exact Hin].
    right. exists f, rel. auto.
  - right. exists f', rel. auto.
Qed.

Lemma dir_fold_keys_mono files acc k :
  In k (map fst acc) -> In k (map fst (fold_left dir_step files acc)).
Proof.
  revert acc. induction files as [|f files IH]; intros acc H; simpl; [exact H|].
  apply IH. unfold dir_step.
  destruct (extract f); [|exact H].
  destruct (relative_to_str f directory_path); [|exact H].
  apply dict_set_keys. right. exact H.
Qed.

Lemma dir_fold_complete files acc f c rel :
  In f files -> extract f = Ok c -> relative_to_str f directory_path = ROk rel ->
  In (join_slash rel) (map fst (fold_left dir_step files acc)).
Proof.
  revert acc. induction files as [|f0 files IH]; intros acc Hin Hc Hr; [contradiction|].
  simpl. destruct Hin as [<- | Hin]; [|apply IH; assumption].
  apply dir_fold_keys_mono. unfold dir_step. rewrite Hc, Hr.
  apply dict_set_keys. left. reflexivity.
Qed.

End DirFold.

Lemma sync_extract_pdf_cfg cfg fs input_data sm fl :
  snd (sync_extract_pdf cfg fs input_data sm fl) = cfg.
Proof. destruct cfg. reflexivity. Qed.

Lemma sync_dir_loop_fold cfg fs d sm fl files acc :
  sync_dir_loop cfg fs d sm fl files acc
  = (fold_left (dir_step (fun f => fst (sync_extract_pdf cfg fs (InPath (path_str f)) sm fl)) d)
               files acc, cfg).
Proof.
  revert acc. induction files as [|f files IH]; intros acc; cbn [sync_dir_loop fold_left]; [reflexivity|].
  destruct (sync_extract_pdf cfg fs (InPath (path_str f)) sm fl) as [r c] eqn:E.
  assert (Hc : c = cfg).
  { rewrite <- (sync_extract_pdf_cfg cfg fs (InPath (path_str f)) sm fl), E. reflexivity. }
  subst c. rewrite IH. do 2 f_equal. unfold dir_step. cbv beta. rewrite E. reflexivity.
Qed.

Lemma async_dir_loop_fold cfg fs d sm fl files acc :
  async_dir_loop cfg fs d sm fl files acc
  = fold_left (dir_step (fun f => snd (async_extract_pdf cfg fs (InPath (path_str f)) sm fl)) d)
              files acc.
Proof.
  revert acc. induction files as [|f files IH]; intros acc; simpl; [reflexivity|].
  rewrite IH. reflexivity.
Qed.

(** [sync_extract_pdfs_from_directory] leaves [SAFE_MODE_CONFIG] as it
    found it, whether it returns or raises; on success its keys are
    pairwise distinct; each entry is the extraction of a traversed file
    stored under that file's path relative to [directory_path] (a later
    file with the same key overwrites an earlier one); and every traversed
    file whose extraction succeeds and whose relative path exists has an
    entry. *)
Theorem sync_extract_pdfs_from_directory_entries cfg fs d sm fl :
  snd (sync_extract_pdfs_from_directory cfg fs d sm fl) = cfg /\
  forall r, fst (sync_extract_pdfs_from_directory cfg fs d sm fl) = Ok r ->
  exists files, traverse_directory cfg fs d sm = Ok files /\
  NoDup (map fst r) /\
  (forall k v, In (k, v) r ->
     exists f rel, In f files /\ relative_to_str f d = ROk rel /\ join_slash rel = k /\
       fst (sync_extract_pdf cfg fs (InPath (path_str f)) sm fl) = Ok v) /\
  (forall f v rel, In f files ->
     fst (sync_extract_pdf cfg fs (InPath (path_str f)) sm fl) = Ok v ->
     relative_to_str f d = ROk rel -> In (join_slash rel) (map fst r)).
Proof.
  unfold sync_extract_pdfs_from_directory.
  destruct (validate_path cfg fs d sm) as [dir|e];
    [|split; [reflexivity | intros r H; discriminate H]].
  destruct (negb (is_dir fs dir)); [split; [reflexivity | intros r H; discriminate H]|].
  destruct (traverse_directory cfg fs d sm) as [files|e] eqn:Ht;
    [|split; [reflexivity | intros r H; discriminate H]].
  rewrite sync_dir_loop_fold. cbn [fst snd]. split; [reflexivity|].
  intros r H. injection H as <-.
  exists files. split; [reflexivity|].
  split; [apply dir_fold_nodup; constructor|].
  split.
  - intros k v Hin. destruct (dir_fold_sound _ _ _ _ _ _ Hin) as [[] | Hex]. exact Hex.
  - intros f v rel Hf Hv Hr. eapply dir_fold_complete; eassumption.
Qed.

Lemma sync_extract_pdfs_from_directory_entries_witness :
  sync_extract_pdfs_from_directory cfg0 fs0 "/base/docs" true no_flags
    = (Ok ([("a.pdf", []); ("b.pdf", [])] : DirectoryResult), cfg0) /\
  exists files, traverse_directory cfg0 fs0 "/base/docs" true = Ok files /\
  NoDup (map fst ([("a.pdf", []); ("b.pdf", [])] : DirectoryResult)) /\
  (forall k v, In (k, v) ([("a.pdf", []); ("b.pdf", [])] : DirectoryResult) ->
     exists f rel, In f files /\ relative_to_str f "/base/docs" = ROk rel /\
       join_slash rel = k /\
       fst (sync_extract_pdf cfg0 fs0 (InPath (path_str f)) true no_flags) = Ok v) /\
  (forall f v rel, In f files ->
     fst (sync_extract_pdf cfg0 fs0 (InPath (path_str f)) true no_flags) = Ok v ->
     relative_to_str f "/base/docs" = ROk rel ->
     In (join_slash rel) (map fst ([("a.pdf", []); ("b.pdf", [])] : DirectoryResult))).
Proof.
  assert (H : sync_extract_pdfs_from_directory cfg0 fs0 "/base/docs" true no_flags
              = (Ok ([("a.pdf", []); ("b.pdf", [])] : DirectoryResult), cfg0))
    by (vm_compute; reflexivity).
  split; [exact H|].
  apply (proj2 (sync_extract_pdfs_from_directory_entries cfg0 fs0 "/base/docs" true no_flags)).
  rewrite H. reflexivity.
Defined.

(* ------------------------------------------------------------------ *)
(** ** Blocking and cooperative entry points *)

Lemma dir_fold_ext F G d files acc :
  (forall f, F f = G f) ->
  fold_left (dir_step F d) files acc = fold_left (dir_step G d) files acc.
Proof.
  intros H. revert acc. induction files as [|f files IH]; intros acc; simpl; [reflexivity|].
  replace (dir_step F d acc f) with (dir_step G d acc f)
    by (unfold dir_step; rewrite H; reflexivity).
  apply IH.
Qed.

Lemma sync_async_dir_agree cfg fs d fl :
  sync_extract_pdfs_from_directory cfg fs d true fl
  = (async_extract_pdfs_from_directory cfg fs d true fl, cfg).
Proof.
  unfold sync_extract_pdfs_from_directory, async_extract_pdfs_from_directory, bind.
  destruct (validate_path cfg fs d true) as [dir|e]; [|reflexivity].
  destruct (negb (is_dir fs dir)); [reflexivity|].
  destruct (traverse_directory cfg fs d true) as [files|e]; [|reflexivity].
  cbv beta iota. rewrite sync_dir_loop_fold, async_dir_loop_fold.
  do 2 f_equal. apply dir_fold_ext. intros f.
  apply sync_async_agree. left. reflexivity.
Qed.

Lemma sync_extract_pdf_pair cfg fs input_data fl :
  sync_extract_pdf cfg fs input_data true fl
  = (snd (async_extract_pdf cfg fs input_data true fl), cfg).
Proof.
  rewrite <- (sync_async_agree cfg fs input_data true fl (or_introl eq_refl)).
  rewrite <- (sync_extract_pdf_cfg cfg fs input_data true fl) at 3.
  destruct (sync_extract_pdf cfg fs input_data true fl). reflexivity.
Qed.

Lemma extract_pdfs_sync_pair cfg fs input_path fl :
  extract_pdfs_sync cfg fs input_path true fl
  = (extract_pdfs_async cfg fs input_path true fl, cfg).
Proof.
  destruct input_path as [b|s]; unfold extract_pdfs_sync, extract_pdfs_async.
  - rewrite sync_extract_pdf_pair. reflexivity.
  - unfold bind. destruct (validate_path cfg fs s true) as [p|e]; [|reflexivity].
    destruct (is_dir fs p).
    + rewrite sync_async_dir_agree. reflexivity.
    + destruct (is_file fs p); [|reflexivity].
      rewrite sync_extract_pdf_pair. reflexivity.
Qed.

(** Called with [safe_mode=True], the blocking entry points and the
    cooperative ones compute the same value, for a directory as for any
    input of [extract_pdfs_*], and the blocking ones leave
    [SAFE_MODE_CONFIG] unchanged. *)
Theorem extract_pdfs_sync_async_agree cfg fs d input_path fl :
  sync_extract_pdfs_from_directory cfg fs d true fl
    = (async_extract_pdfs_from_directory cfg fs d true fl, cfg) /\
  extract_pdfs_sync cfg fs input_path true fl
    = (extract_pdfs_async cfg fs input_path true fl, cfg).
Proof.
  split; [apply sync_async_dir_agree | apply extract_pdfs_sync_pair].
Qed.

Lemma async_page_loop_all fl doc m n acc pages :
  Forall2 (fun i page => doc_getitem doc i = ROk page) (seq n m) pages ->
  async_page_loop fl doc (seq n m) acc = (repeat Yield m, Ok (process_pages fl pages n acc)).
Proof.
  revert n acc pages. induction m as [|m IH]; intros n acc pages H.
  - inversion H. reflexivity.
  - cbn [seq] in H. inversion H as [|i page nums ps Hi Hrest]; subst.
    cbn [seq async_page_loop]. rewrite Hi. cbn [of_res].
    rewrite (IH (S n) _ ps Hrest). reflexivity.
Qed.

Lemma async_page_loop_fail fl doc m n acc j k :
  n <= j < n + m -> doc_getitem doc j = RErr k ->
  (forall i, n <= i < j -> exists page, doc_getitem doc i = ROk page) ->
  async_page_loop fl doc (seq n m) acc = (repeat Yield (j - n), Raise (PyError k)).
Proof.
  revert n acc. induction m as [|m IH]; intros n acc Hj Hk Hbefore; [lia|].
  cbn [seq async_page_loop].
  destruct (Nat.eq_dec j n) as [->|Hne].
  - rewrite Hk, Nat.sub_diag. reflexivity.
  - destruct (Hbefore n ltac:(lia)) as [page Hp]. rewrite Hp. cbn [of_res].
    rewrite (IH (S n)); [| lia | exact Hk | intros i Hi; apply Hbefore; lia].
    replace (j - n) with (S (j - S n)) by lia. reflexivity.
Qed.

(** [async_extract_pdf] yields to the event loop once after each page it
    processes.  When the input cannot be opened it yields nothing and
    raises.  Otherwise, for the page count N: when every page [doc[i]],
    [i < N], loads, it yields N times and returns what the blocking page
    loop computes on those pages; when [doc[j]] is the first page that
    fails to load, it yields [j] times, then raises the handled error. *)
Theorem async_extract_pdf_trace cfg fs input_data sm fl :
  match open_input cfg fs input_data sm with
  | Raise e => async_extract_pdf cfg fs input_data sm fl = ([], Raise (handle_extract_exn e))
  | Ok doc =>
      (forall pages, loaded doc pages ->
         async_extract_pdf cfg fs input_data sm fl
         = (repeat Yield (_get_page_count doc), Ok (process_pages fl pages 0 []))) /\
      (forall j k, j < _get_page_count doc -> doc_getitem doc j = RErr k ->
         (forall i, i < j -> exists page, doc_getitem doc i = ROk page) ->
         async_extract_pdf cfg fs input_data sm fl
         = (repeat Yield j, Raise (handle_extract_exn (PyError k))))
  end.
Proof.
  unfold async_extract_pdf. cbv zeta.
  destruct (open_input cfg fs input_data sm) as [doc|e]; [split|reflexivity].
  - intros pages Hl. rewrite (async_page_loop_all fl doc _ 0 [] pages Hl). reflexivity.
  - intros j k Hj Hk Hbefore.
    rewrite (async_page_loop_fail fl doc _ 0 [] j k); [| lia | exact Hk | ].
    + rewrite Nat.sub_0_r. reflexivity.
    + intros i Hi. apply Hbefore. lia.
Qed.

(** The trace theorem on the two-page document, and on the document whose
    second page fails to load. *)
Lemma async_extract_pdf_trace_witness :
  async_extract_pdf cfg0 fs0 (InBytes "%PDF-1.4") true all_flags
    = ([Yield; Yield], Ok (process_pages all_flags [good_page; bad_page] 0 [])) /\
  async_extract_pdf cfg0 (fs_doc doc_badload) (InBytes "%PDF-1.4") true all_flags
    = ([Yield], Raise (handle_extract_exn (PyError RuntimeError))).
Proof.
  split.
  - pose proof (async_extract_pdf_trace cfg0 fs0 (InBytes "%PDF-1.4") true all_flags) as H.
    cbn [open_input fs_open_stream fs0 of_res String.eqb Ascii.eqb Bool.eqb] in H.
    apply (proj1 H). repeat constructor.
  - pose proof (async_extract_pdf_trace cfg0 (fs_doc doc_badload) (InBytes "%PDF-1.4")
                  true all_flags) as H.
    cbn [open_input fs_open_stream fs_doc of_res] in H.
    apply (proj2 H 1 RuntimeError); [vm_compute; lia | reflexivity |].
    intros i Hi. assert (i = 0) as -> by lia. eexists; reflexivity.
Defined.

(* ------------------------------------------------------------------ *)
(** ** Configuring the sandbox *)

Lemma is_relative_to_refl p : is_relative_to p p = true.
Proof. induction p as [|c p IH]; simpl; [reflexivity|]. rewrite String.eqb_refl. exact IH. Qed.

(** [set_safe_mode] always leaves a usable sandbox: the flag is the one
    given, the set of allowed extensions is never empty, the base directory
    is a resolved path (the working directory when none is given), and,
    when it is a directory, the base directory itself passes
    [validate_path] in safe mode. *)
Theorem set_safe_mode_sound fs cfg e b a :
  forallb clean_component (fs_cwd fs) = true ->
  enabled (set_safe_mode fs cfg e b a) = e /\
  allowed_extensions (set_safe_mode fs cfg e b a) <> [] /\
  forallb clean_component (base_directory (set_safe_mode fs cfg e b a)) = true /\
  (b = None -> base_directory (set_safe_mode fs cfg e b a) = fs_cwd fs) /\
  (is_dir fs (base_directory (set_safe_mode fs cfg e b a)) = true ->
   validate_path (set_safe_mode fs cfg e b a) fs
     (path_str (base_directory (set_safe_mode fs cfg e b a))) true
   = Ok (base_directory (set_safe_mode fs cfg e b a))).
Proof.
  intros Hcwd.
  assert (Hclean : forallb clean_component (base_directory (set_safe_mode fs cfg e b a)) = true).
  { unfold set_safe_mode, SafeModeConfig_init; cbn [base_directory].
    destruct b as [s|]; [destruct (String.eqb s "")|]; apply resolve_clean, Hcwd. }
  split; [reflexivity|]. split.
  { unfold set_safe_mode, SafeModeConfig_init; cbn [allowed_extensions].
    destruct a as [[|x l]|]; intros Hnil; discriminate Hnil. }
  split; [exact Hclean|]. split.
  { intros ->. apply resolve_path_str, Hcwd. }
  intros Hdir. unfold validate_path.
  rewrite (resolve_path_str (fs_cwd fs) _ Hclean), Hdir, is_relative_to_refl.
  reflexivity.
Qed.

Lemma set_safe_mode_sound_witness :
  forallb clean_component (fs_cwd fs0) = true /\
  base_directory (set_safe_mode fs0 cfg0 true (Some "docs/..") (Some [])) = ["base"] /\
  allowed_extensions (set_safe_mode fs0 cfg0 true (Some "docs/..") (Some [])) = [".pdf"] /\
  validate_path (set_safe_mode fs0 cfg0 true (Some "docs/..") (Some [])) fs0
    (path_str ["base"]) true = Ok ["base"].
Proof.
  split; [reflexivity | split; [reflexivity | split; [reflexivity|]]].
  destruct (set_safe_mode_sound fs0 cfg0 true (Some "docs/..") (Some []) eq_refl)
    as [_ [_ [_ [_ Hv]]]].
  exact (Hv eq_refl).
Defined.

(* ------------------------------------------------------------------ *)
(** ** Errors surfaced by the entry points *)

Lemma handle_extract_exn_pdf_error e :
  exists m, handle_extract_exn e = PDFProcessingError m.
Proof.
  destruct e as [m|k]; simpl; [eexists; reflexivity|].
  destruct (is_value_or_runtime k); [eexists; reflexivity|].
  destruct k; eexists; reflexivity.
Qed.

Lemma validate_path_raise_pdf_error cfg fs s sm e :
  validate_path cfg fs s sm = Raise e -> exists m, e = PDFProcessingError m.
Proof.
  unfold validate_path. destruct sm; [|discriminate].
  destruct (is_dir fs _), (negb (is_relative_to _ _)); try discriminate;
    try (intros H; injection H as <-; eexists; reflexivity).
  destruct (negb (mem_str _ _)); [|discriminate].
  intros H. injection H as <-. eexists; reflexivity.
Qed.

(** The blocking and the cooperative extraction return the same value:
    the body's, run with the [safe_mode] the page loop validated with. *)
Lemma async_extract_pdf_value cfg fs input_data sm fl :
  snd (async_extract_pdf cfg fs input_data sm fl)
  = sync_extract_pdf_body cfg fs input_data sm fl.
Proof.
  rewrite async_extract_pdf_snd. unfold sync_extract_pdf_body.
  destruct (open_input cfg fs input_data sm); reflexivity.
Qed.

Lemma sync_extract_pdf_body_raise cfg fs input_data sm fl e :
  sync_extract_pdf_body cfg fs input_data sm fl = Raise e -> exists m, e = PDFProcessingError m.
Proof.
  unfold sync_extract_pdf_body. destruct (bind _ _); [discriminate|].
  intros H. injection H as <-. apply handle_extract_exn_pdf_error.
Qed.

Lemma sync_extract_pdf_body_ok cfg fs input_data sm fl :
  (exists r, sync_extract_pdf_body cfg fs input_data sm fl = Ok r) <->
  (exists doc pages, open_input cfg fs input_data sm = Ok doc /\ loaded doc pages).
Proof.
  unfold sync_extract_pdf_body.
  destruct (open_input cfg fs input_data sm) as [doc|e]; cbn [bind].
  - destruct (extract_document fl doc) as [r|e] eqn:He.
    + split; [intros _ | intros _; eexists; reflexivity].
      destruct (extract_document_ok _ _ _ He) as [pages [Hl _]].
      exists doc, pages. split; [reflexivity | exact Hl].
    + split; [intros [r Hr]; discriminate|].
      intros [doc' [pages [Hd Hl]]]. injection Hd as <-.
      rewrite (extract_document_loaded fl _ _ Hl) in He. discriminate.
  - split; [intros [r Hr]; discriminate|].
    intros [doc [pages [Hd _]]]. discriminate.
Qed.

(** [sync_extract_pdf] and [async_extract_pdf] raise nothing but
    [PDFProcessingError]; they return exactly when the input opens and
    every page [doc[i]] below the page count loads: a failure inside an
    extractor never escapes, a failure to load a page does. *)
Theorem extract_pdf_errors cfg fs input_data sm fl :
  (forall e, fst (sync_extract_pdf cfg fs input_data sm fl) = Raise e ->
             exists m, e = PDFProcessingError m) /\
  ((exists r, fst (sync_extract_pdf cfg fs input_data sm fl) = Ok r) <->
   (exists doc pages, open_input cfg fs input_data true = Ok doc /\ loaded doc pages)) /\
  (forall e, snd (async_extract_pdf cfg fs input_data sm fl) = Raise e ->
             exists m, e = PDFProcessingError m) /\
  ((exists r, snd (async_extract_pdf cfg fs input_data sm fl) = Ok r) <->
   (exists doc pages, open_input cfg fs input_data sm = Ok doc /\ loaded doc pages)).
Proof.
  rewrite sync_extract_pdf_safe_mode_irrelevant, async_extract_pdf_value.
  split; [apply sync_extract_pdf_body_raise|].
  split; [apply sync_extract_pdf_body_ok|].
  split; [apply sync_extract_pdf_body_raise | apply sync_extract_pdf_body_ok].
Qed.

(** A path refused by [validate_path] in safe mode surfaces differently at
    the two levels: [extract_pdfs_sync] re-raises the sandbox error as it is
    ("Access denied ..." or "Invalid file type ..."), while
    [sync_extract_pdf] catches it in its generic handler and raises
    "Failed to extract content from PDF: ..." around it. *)
Theorem validation_error_surface cfg fs s sm fl e :
  validate_path cfg fs s true = Raise e ->
  fst (extract_pdfs_sync cfg fs (InPath s) true fl) = Raise e /\
  fst (sync_extract_pdf cfg fs (InPath s) sm fl) = Raise (PDFProcessingError (FailedToExtract e)).
Proof.
  intros H. split.
  - unfold extract_pdfs_sync. rewrite H. reflexivity.
  - rewrite sync_extract_pdf_spec. unfold open_input, bind. rewrite H.
    destruct (validate_path_raise_pdf_error _ _ _ _ _ H) as [m ->]. reflexivity.
Qed.

Lemma validation_error_surface_witness :
  validate_path cfg0 fs0 "/other/x.pdf" true
    = Raise (PDFProcessingError (AccessDenied ["other"; "x.pdf"])) /\
  fst (extract_pdfs_sync cfg0 fs0 (InPath "/other/x.pdf") true all_flags)
    = Raise (PDFProcessingError (AccessDenied ["other"; "x.pdf"])) /\
  fst (sync_extract_pdf cfg0 fs0 (InPath "/other/x.pdf") false all_flags)
    = Raise (PDFProcessingError
               (FailedToExtract (PDFProcessingError (AccessDenied ["other"; "x.pdf"])))).
Proof.
  assert (H : validate_path cfg0 fs0 "/other/x.pdf" true
              = Raise (PDFProcessingError (AccessDenied ["other"; "x.pdf"])))
    by (vm_compute; reflexivity).
  split; [exact H|].
  exact (validation_error_surface cfg0 fs0 "/other/x.pdf" false all_flags _ H).
Defined.

(** With [safe_mode=True], [extract_pdfs] produces the same value whether it
    is called inside a running event loop (the task's awaited value) or
    outside one (the blocking call's value), and it leaves
    [SAFE_MODE_CONFIG] unchanged. *)
Theorem extract_pdfs_context_independent running_async cfg fs input_path fl :
  dispatched_value (fst (extract_pdfs running_async cfg fs input_path true fl))
    = extract_pdfs_async cfg fs input_path true fl /\
  snd (extract_pdfs running_async cfg fs input_path true fl) = cfg.
Proof.
  unfold extract_pdfs. destruct running_async; [split; reflexivity|].
  rewrite extract_pdfs_sync_pair. split; reflexivity.
Qed.

(* ------------------------------------------------------------------ *)
(** ** Keys of a directory result *)

Lemma relative_to_app p base rel :
  relative_to p base = ROk rel -> p = base ++ rel.
Proof.
  revert p. induction base as [|b base IH]; intros p H; destruct p as [|c p]; simpl in H.
  - injection H as <-. reflexivity.
  - injection H as <-. reflexivity.
  - discriminate.
  - destruct (String.eqb_spec b c) as [-> | _]; [|discriminate].
    rewrite (IH p H). reflexivity.
Qed.

Lemma traverse_directory_clean cfg fs d sm files f :
  forallb clean_component (fs_cwd fs) = true ->
  traverse_directory cfg fs d sm = Ok files -> In f files ->
  forallb clean_component f = true.
Proof.
  intros Hcwd H Hf. unfold traverse_directory, bind in H.
  destruct (validate_path cfg fs d sm) as [dir|e]; [|discriminate].
  destruct (negb (is_dir fs dir)); [discriminate|].
  apply Ok_inj in H. subst files.
  destruct (in_flat_map_validate _ _ _ _ _ Hf) as [w [_ Hv]].
  destruct (validate_path_ok_inv _ _ _ _ _ Hv) as [-> _].
  apply resolve_clean, Hcwd.
Qed.

(** [file_path.relative_to(directory_path)] compares the resolved file
    path with the parts of the unresolved [directory_path]; a [".."] in
    [directory_path] matches no resolved path, so
    [sync_extract_pdfs_from_directory] then returns an empty result even
    when the directory holds extractable files. *)
Theorem sync_extract_pdfs_from_directory_dotdot_root cfg fs d sm fl r cfg' :
  forallb clean_component (fs_cwd fs) = true ->
  In ".." (snd (pure_parts d)) ->
  sync_extract_pdfs_from_directory cfg fs d sm fl = (Ok r, cfg') ->
  r = [].
Proof.
  intros Hcwd Hdd H.
  unfold sync_extract_pdfs_from_directory in H.
  destruct (validate_path cfg fs d sm) as [dir|e]; [|discriminate].
  destruct (negb (is_dir fs dir)); [discriminate|].
  destruct (traverse_directory cfg fs d sm) as [files|e] eqn:Ht; [|discriminate].
  cbv beta iota in H. rewrite sync_dir_loop_fold in H. injection H as Hr _.
  destruct r as [|[k v] r]; [reflexivity|exfalso].
  assert (Hin : In (k, v) ((k, v) :: r)) by (left; reflexivity).
  rewrite <- Hr in Hin.
  destruct (dir_fold_sound _ _ _ _ _ _ Hin) as [[] | [f [rel [Hf [Hrel _]]]]].
  pose proof (traverse_directory_clean _ _ _ _ _ _ Hcwd Ht Hf) as Hclean.
  unfold relative_to_str in Hrel.
  destruct (pure_parts d) as [abs parts]. simpl in Hdd.
  destruct abs; [|discriminate].
  apply relative_to_app in Hrel. subst f.
  rewrite forallb_app in Hclean. apply andb_true_iff in Hclean as [Hclean _].
  rewrite forallb_forall in Hclean. specialize (Hclean _ Hdd).
  discriminate Hclean.
Qed.

Lemma sync_extract_pdfs_from_directory_dotdot_root_witness :
  forallb clean_component (fs_cwd fs0) = true /\
  In ".." (snd (pure_parts "/base/other/../docs")) /\
  traverse_directory cfg0 fs0 "/base/other/../docs" true
    = Ok [["base"; "docs"; "a.pdf"]; ["base"; "docs"; "b.pdf"]] /\
  sync_extract_pdfs_from_directory cfg0 fs0 "/base/other/../docs" true all_flags
    = (Ok [], cfg0).
Proof.
  assert (Hdd : In ".." (snd (pure_parts "/base/other/../docs")))
    by (vm_compute; right; right; left; reflexivity).
  assert (H : exists r, sync_extract_pdfs_from_directory cfg0 fs0 "/base/other/../docs"
                          true all_flags = (Ok r, cfg0))
    by (eexists; vm_compute; reflexivity).
  destruct H as [r H].
  rewrite (sync_extract_pdfs_from_directory_dotdot_root cfg0 fs0 "/base/other/../docs"
             true all_flags r cfg0 eq_refl Hdd H) in H.
  split; [reflexivity | split; [exact Hdd | split; [vm_compute; reflexivity | exact H]]].
Defined.

Lemma join_slash_concat r : r <> [] -> join_slash r = String.concat "/" r.
Proof.
  induction r as [|c r IH]; intros Hne; [congruence|].
  destruct r as [|c' r]; [reflexivity|].
  change (join_slash (c :: c' :: r)) with (String.append c (String.append "/" (join_slash (c' :: r)))).
  rewrite IH by discriminate. reflexivity.
Qed.

Lemma join_slash_inj r1 r2 :
  forallb clean_component r1 = true -> forallb clean_component r2 = true ->
  join_slash r1 = join_slash r2 -> r1 = r2.
Proof.
  assert (Hsplit : forall r, r <> [] -> forallb clean_component r = true ->
                   split_slash_aux (join_slash r) "" = r).
  { intros r Hne Hc. rewrite join_slash_concat by exact Hne.
    apply split_slash_concat; [exact Hne|].
    apply forallb_forall. intros x Hx. rewrite forallb_forall in Hc.
    exact (proj1 (clean_component_spec x (Hc x Hx))). }
  assert (Hdot : forall r, r <> [] -> forallb clean_component r = true ->
                 join_slash r <> ".").
  { intros r Hne Hc Hj. pose proof (Hsplit r Hne Hc) as Hs. rewrite Hj in Hs.
    simpl in Hs. rewrite <- Hs in Hc. discriminate Hc. }
  intros H1 H2 Hj.
  destruct r1 as [|c1 r1], r2 as [|c2 r2]; [reflexivity| | |].
  - exfalso. apply (Hdot (c2 :: r2)); [discriminate | exact H2 | symmetry; exact Hj].
  - exfalso. apply (Hdot (c1 :: r1)); [discriminate | exact H1 | exact Hj].
  - rewrite <- (Hsplit (c1 :: r1)), <- (Hsplit (c2 :: r2)) by (discriminate || assumption).
    rewrite Hj. reflexivity.
Qed.

(** Two traversed files never share a key of the directory result: the
    relative path under which a file is stored determines the file, so no
    extracted document overwrites another. *)
Theorem directory_keys_injective cfg fs d sm files f1 f2 r1 r2 :
  forallb clean_component (fs_cwd fs) = true ->
  traverse_directory cfg fs d sm = Ok files -> In f1 files -> In f2 files ->
  relative_to_str f1 d = ROk r1 -> relative_to_str f2 d = ROk r2 ->
  join_slash r1 = join_slash r2 -> f1 = f2.
Proof.
  intros Hcwd Ht Hf1 Hf2 Hr1 Hr2 Hj.
  pose proof (traverse_directory_clean _ _ _ _ _ _ Hcwd Ht Hf1) as Hc1.
  pose proof (traverse_directory_clean _ _ _ _ _ _ Hcwd Ht Hf2) as Hc2.
  unfold relative_to_str in Hr1, Hr2. destruct (pure_parts d) as [abs parts].
  destruct abs; [|discriminate].
  apply relative_to_app in Hr1, Hr2. subst f1 f2.
  rewrite forallb_app in Hc1, Hc2.
  apply andb_true_iff in Hc1 as [_ Hc1]. apply andb_true_iff in Hc2 as [_ Hc2].
  rewrite (join_slash_inj r1 r2 Hc1 Hc2 Hj). reflexivity.
Qed.

Lemma directory_keys_injective_witness :
  forallb clean_component (fs_cwd fs0) = true /\
  traverse_directory cfg0 fs0 "/base/docs" true
    = Ok [["base"; "docs"; "a.pdf"]; ["base"; "docs"; "b.pdf"]] /\
  relative_to_str ["base"; "docs"; "b.pdf"] "/base/docs" = ROk ["b.pdf"] /\
  ["base"; "docs"; "b.pdf"] = ["base"; "docs"; "b.pdf"].
Proof.
  assert (Ht : traverse_directory cfg0 fs0 "/base/docs" true
               = Ok [["base"; "docs"; "a.pdf"]; ["base"; "docs"; "b.pdf"]])
    by (vm_compute; reflexivity).
  assert (Hr : relative_to_str ["base"; "docs"; "b.pdf"] "/base/docs" = ROk ["b.pdf"])
    by (vm_compute; reflexivity).
  split; [reflexivity | split; [exact Ht | split; [exact Hr|]]].
  exact (directory_keys_injective cfg0 fs0 "/base/docs" true _ _ _ _ _ eq_refl Ht
           (or_intror (or_introl eq_refl)) (or_intror (or_introl eq_refl)) Hr Hr eq_refl).
Defined.

(** The content stored under a key of [sync_extract_pdf]'s result depends
    only on that key's own flag: enabling or disabling the other kinds of
    extraction does not change it, nor whether the call returns or what it
    raises. *)
Theorem extract_document_flag_independent k cfg fs input_data sm fl fl' :
  key_flag fl k = key_flag fl' k ->
  match fst (sync_extract_pdf cfg fs input_data sm fl),
        fst (sync_extract_pdf cfg fs input_data sm fl') with
  | Ok r, Ok r' => lookup (key_name k) r = lookup (key_name k) r'
  | Raise e, Raise e' => e = e'
  | _, _ => False
  end.
Proof.
  intros H. rewrite !sync_extract_pdf_spec.
  destruct (open_input cfg fs input_data true) as [doc|e]; [|reflexivity].
  rewrite !extract_document_load.
  destruct (load_pages doc _); cbn [bind]; [|reflexivity].
  rewrite !lookup_extract_document, H. reflexivity.
Qed.

Lemma extract_document_flag_independent_witness :
  key_flag all_flags KTables = key_flag
    {| f_text := false; f_table := true; f_image := false; f_encode_page := false;
       f_segment := false |} KTables /\
  lookup (key_name KTables) (process_pages all_flags [good_page; bad_page] 0 [])
  = lookup (key_name KTables)
      (process_pages {| f_text := false; f_table := true; f_image := false;
                        f_encode_page := false; f_segment := false |}
         [good_page; bad_page] 0 []).
Proof.
  split; [reflexivity|].
  exact (extract_document_flag_independent KTables cfg0 fs0 (InBytes "%PDF-1.4") true
           all_flags _ eq_refl).
Defined.

(** Without safe mode [traverse_directory] filters nothing: it returns
    every entry of the walk of the resolved directory, resolved, in walk
    order. *)
Theorem traverse_directory_unsafe_all cfg fs d files :
  traverse_directory cfg fs d false = Ok files ->
  is_dir fs (resolve (fs_cwd fs) d) = true /\
  files = map (fun w => resolve (fs_cwd fs) (path_str w)) (fs_walk fs (resolve (fs_cwd fs) d)).
Proof.
  unfold traverse_directory, bind. cbn [validate_path].
  destruct (is_dir fs (resolve (fs_cwd fs) d)) eqn:Hd; cbn [negb]; [|discriminate].
  intros H. apply Ok_inj in H. subst files. split; [reflexivity|].
  induction (fs_walk fs (resolve (fs_cwd fs) d)) as [|w ws IH]; [reflexivity|].
  simpl. f_equal.
Qed.

Lemma traverse_directory_unsafe_all_witness :
  traverse_directory cfg0 fs0 "/other/../base/docs" false
    = Ok [["base"; "docs"; "a.pdf"]; ["base"; "docs"; "b.pdf"]; ["base"; "docs"; "c.txt"]] /\
  is_dir fs0 ["base"; "docs"] = true.
Proof.
  assert (H : traverse_directory cfg0 fs0 "/other/../base/docs" false
    = Ok [["base"; "docs"; "a.pdf"]; ["base"; "docs"; "b.pdf"]; ["base"; "docs"; "c.txt"]])
    by (vm_compute; reflexivity).
  split; [exact H|].
  exact (proj1 (traverse_directory_unsafe_all cfg0 fs0 "/other/../base/docs" _ H)).
Defined.
